(** * Activity aggregation of [json_parsing_exercise/exercise.py]

    A shallow embedding of the module: the pydantic input model
    ([Comment], [InstagramData] and their field validators), the
    [ActivityAggregator] (daily calendar, daily sums, monthly aggregates)
    and the library operations they are built from ([datetime.strptime] with
    the format ["%d/%m/%y"], the polars date range, left join and dynamic
    group-by).

    Conventions.
    - A Python [datetime] produced by the format ["%d/%m/%y"] has its time at
      midnight; it is the record [datetime] of year, month and day.
    - A polars [Date] is a number of days since 1970-01-01, a [Z].
    - A Python [int] is a mathematical integer ([Z]). The integer columns of
      polars are [Int32] and [Int64]: arithmetic on them and their sums wrap
      around. The column [count] holds the counts of the comments as they
      are, which takes counts from -2^63 to 2^63-1.
    - A Python [str] is the sequence of its code points ([str]). Which code
      points beyond ASCII are decimal digits is a parameter, the table
      [UnicodeData] of the Unicode database.
    - A data frame is the list of its rows, in row order. *)

From Stdlib Require Import ZArith NArith List Ascii Bool Lia Sorted.
Import ListNotations.

Local Open Scope Z_scope.

(* ================================================================= *)
(** ** The proleptic Gregorian calendar *)

Module Calendar.

(** A Python [datetime] at midnight. *)
Record datetime : Set := mkdatetime { year : Z; month : Z; day : Z }.

Definition datetime_eqb (a b : datetime) : bool :=
  (year a =? year b) && (month a =? month b) && (day a =? day b).

(** [datetime._is_leap]. *)
Definition is_leap (y : Z) : bool :=
  (y mod 4 =? 0) && (negb (y mod 100 =? 0) || (y mod 400 =? 0)).

(** [datetime._days_in_month]; 0 for a month that does not exist. *)
Definition days_in_month (y m : Z) : Z :=
  match m with
  | 1 | 3 | 5 | 7 | 8 | 10 | 12 => 31
  | 4 | 6 | 9 | 11 => 30
  | 2 => if is_leap y then 29 else 28
  | _ => 0
  end.

(** [datetime._days_before_year]: days before January 1st of year [y]. *)
Definition days_before_year (y : Z) : Z :=
  let p := y - 1 in p * 365 + p / 4 - p / 100 + p / 400.

(** [datetime._days_before_month]: days of year [y] before the first day
    of month [m]. *)
Definition days_before_month (y m : Z) : Z :=
  let common :=
    match m with
    | 1 => 0 | 2 => 31 | 3 => 59 | 4 => 90 | 5 => 120 | 6 => 151
    | 7 => 181 | 8 => 212 | 9 => 243 | 10 => 273 | 11 => 304 | _ => 334
    end in
  common + (if (2 <? m) && is_leap y then 1 else 0).

(** The check of the [datetime] constructor: a date that exists. *)
Definition valid_date (d : datetime) : bool :=
  (1 <=? month d) && (month d <=? 12) &&
  (1 <=? day d) && (day d <=? days_in_month (year d) (month d)).

(** [datetime.toordinal]: January 1st of year 1 is day 1. *)
Definition toordinal (d : datetime) : Z :=
  days_before_year (year d) + days_before_month (year d) (month d) + day d.

(** [(b - a).days]. *)
Definition days_between (a b : datetime) : Z := toordinal b - toordinal a.

(** The ordinal of 1970-01-01. *)
Definition epoch_ordinal : Z := 719163.

(** [cast(pl.Date)]: days since the epoch. *)
Definition cast_date (d : datetime) : Z := toordinal d - epoch_ordinal.

(** The day after [d]. *)
Definition next_day (d : datetime) : datetime :=
  if day d <? days_in_month (year d) (month d)
  then mkdatetime (year d) (month d) (day d + 1)
  else if month d <? 12
       then mkdatetime (year d) (month d + 1) 1
       else mkdatetime (year d + 1) 1 1.

(** [_DAYS_IN_MONTH] and [_DAYS_BEFORE_MONTH], the tables of a common
    year. *)
Definition DAYS_IN_MONTH (m : Z) : Z :=
  match m with
  | 1 | 3 | 5 | 7 | 8 | 10 | 12 => 31
  | 4 | 6 | 9 | 11 => 30
  | 2 => 28
  | _ => -1
  end.

Definition DAYS_BEFORE_MONTH (m : Z) : Z :=
  match m with
  | 1 => 0 | 2 => 31 | 3 => 59 | 4 => 90 | 5 => 120 | 6 => 151
  | 7 => 181 | 8 => 212 | 9 => 243 | 10 => 273 | 11 => 304 | 12 => 334
  | _ => -1
  end.

(** The end of [_ord2ymd]: month and day of the [n]-th day (from 0) of a
    year. *)
Definition month_and_day (leapyear : bool) (n : Z) : Z * Z :=
  let month := (n + 50) / 32 in
  let preceding :=
    DAYS_BEFORE_MONTH month + (if (2 <? month) && leapyear then 1 else 0) in
  if n <? preceding
  then
    let month := month - 1 in
    let preceding :=
      preceding -
      (DAYS_IN_MONTH month + (if (month =? 2) && leapyear then 1 else 0)) in
    (month, n - preceding + 1)
  else (month, n - preceding + 1).

(** What [month_and_day] has to give for day [n] of a year: a month, a
    day of that month, and [n] days before it in the year. *)
Definition month_and_day_ok (leapyear : bool) (n : Z) : bool :=
  let md := month_and_day leapyear n in
  let m := fst md in
  let d := snd md in
  let feb := if (m =? 2) && leapyear then 1 else 0 in
  let before := if (2 <? m) && leapyear then 1 else 0 in
  (1 <=? m) && (m <=? 12) && (1 <=? d) && (d <=? DAYS_IN_MONTH m + feb) &&
  (DAYS_BEFORE_MONTH m + before + d =? n + 1).

(** [datetime._ord2ymd]: the date of an ordinal, by the cycles of 400,
    100, 4 and 1 years. *)
Definition ord2ymd (ordinal : Z) : datetime :=
  let n := ordinal - 1 in
  let n400 := n / 146097 in
  let n := n mod 146097 in
  let n100 := n / 36524 in
  let n := n mod 36524 in
  let n4 := n / 1461 in
  let n := n mod 1461 in
  let n1 := n / 365 in
  let n := n mod 365 in
  let y := n400 * 400 + 1 + n100 * 100 + n4 * 4 + n1 in
  if (n1 =? 4) || (n100 =? 4)
  then mkdatetime (y - 1) 12 31
  else
    let leapyear := (n1 =? 3) && (negb (n4 =? 24) || (n100 =? 3)) in
    let md := month_and_day leapyear n in
    mkdatetime y (fst md) (snd md).

(** The calendar date of a polars [Date]. *)
Definition civil_from_days (n : Z) : datetime :=
  ord2ymd (n + epoch_ordinal).

(** [Expr.dt.day], [dt.month], [dt.year] on a [Date]. *)
Definition dt_day (n : Z) : Z := day (civil_from_days n).
Definition dt_month (n : Z) : Z := month (civil_from_days n).
Definition dt_year (n : Z) : Z := year (civil_from_days n).

(** [every="1mo"]: the lower bound of the window a [Date] falls in is the
    first day of its calendar month. *)
Definition truncate_1mo (n : Z) : Z :=
  cast_date (mkdatetime (dt_year n) (dt_month n) 1).

End Calendar.

(* ================================================================= *)
(** ** Python values, exceptions and results *)

Module Python.

(** A [str]: the sequence of its code points. *)
Inductive str : Set :=
| EmptyStr
| Str (c : N) (s : str).

(** A text of ASCII characters as a [str], and back: what a text between
    quotes stands for. *)
Fixpoint str_of_bytes (l : list Byte.byte) : str :=
  match l with
  | [] => EmptyStr
  | b :: l' => Str (Byte.to_N b) (str_of_bytes l')
  end.

Fixpoint bytes_of_str (s : str) : option (list Byte.byte) :=
  match s with
  | EmptyStr => Some []
  | Str c s' =>
      match Byte.of_N c, bytes_of_str s' with
      | Some b, Some l => Some (b :: l)
      | _, _ => None
      end
  end.

Declare Scope str_scope.
Delimit Scope str_scope with str.
Bind Scope str_scope with str.
String Notation str str_of_bytes bytes_of_str : str_scope.

(** [s + t], [len(s)] and [s == t]. *)
Fixpoint append (s t : str) : str :=
  match s with
  | EmptyStr => t
  | Str c s' => Str c (append s' t)
  end.

Infix "++" := append : str_scope.

Fixpoint len (s : str) : nat :=
  match s with
  | EmptyStr => 0
  | Str _ s' => S (len s')
  end.

Fixpoint str_eqb (s t : str) : bool :=
  match s, t with
  | EmptyStr, EmptyStr => true
  | Str a s', Str b t' => (a =? b)%N && str_eqb s' t'
  | _, _ => false
  end.

(** The objects [json.loads] hands to the model: [None], booleans,
    integers, strings, lists and dictionaries (as association lists, the
    first binding of a key being the one read). *)
#[warnings="-register-all"]
Inductive value : Type :=
| VNone
| VBool (b : bool)
| VInt (z : Z)
| VStr (s : str)
| VList (items : list value)
| VDict (fields : list (str * value)).

(** One step of the location of an error: a field name or a list index. *)
Inductive loc_item : Set :=
| LField (name : str)
| LIndex (i : nat).

(** A line of a pydantic [ValidationError]. *)
Record ErrorDetails : Type := mkError {
  err_type : str;
  err_loc : list loc_item;
  err_msg : str;
  err_input : value
}.

Inductive exception : Type :=
| ValueError (msg : str)
| TypeError
| IndexError
| ValidationError (errors : list ErrorDetails)
| InvalidOperationError.

Inductive result (A : Type) : Type :=
| Ok (a : A)
| Raise (e : exception).
Arguments Ok {A} a.
Arguments Raise {A} e.

Fixpoint dict_get (key : str) (fields : list (str * value))
  : option value :=
  match fields with
  | [] => None
  | (k, v) :: rest => if str_eqb k key then Some v else dict_get key rest
  end.

(** [item[i]] on a list: [IndexError] out of range. *)
Definition list_get (items : list value) (i : nat) : result value :=
  match nth_error items i with
  | Some v => Ok v
  | None => Raise IndexError
  end.

End Python.

(* ================================================================= *)
(** ** [datetime.strptime(v, "%d/%m/%y")] *)

Module Strptime.
Import Calendar Python.

(** The decimal digits beyond ASCII and their values, as the Unicode
    database gives them ([unicodedata.decimal]); [None] for a code point
    that is no decimal digit. *)
Class UnicodeData : Type := {
  decimal_beyond_ascii : N -> option Z;
  decimal_beyond_ascii_value :
    forall c v, decimal_beyond_ascii c = Some v -> 0 <= v <= 9
}.

(** [unicodedata.decimal]: in ASCII the decimal digits are ["0"] to
    ["9"]. *)
Definition decimal `{UnicodeData} (c : N) : option Z :=
  if (c <? 128)%N
  then if ((48 <=? c) && (c <=? 57))%N then Some (Z.of_N c - 48) else None
  else decimal_beyond_ascii c.

Definition char_class : Type := N -> bool.

Definition lit (a : ascii) : char_class := N.eqb (N_of_ascii a).

Definition in_range (lo hi : ascii) : char_class :=
  fun c => ((N_of_ascii lo <=? c) && (c <=? N_of_ascii hi))%N.

(** [\d]: any decimal digit. *)
Definition is_digit `{UnicodeData} : char_class :=
  fun c => match decimal c with Some _ => true | None => false end.

(** One alternative of a group, a fixed sequence of character classes,
    against the head of [s]: the text matched and the rest. *)
Fixpoint match_seq (cs : list char_class) (s : str)
  : option (str * str) :=
  match cs with
  | [] => Some (EmptyStr, s)
  | c :: cs' =>
      match s with
      | Str a s' =>
          if c a
          then match match_seq cs' s' with
               | Some (t, r) => Some (Str a t, r)
               | None => None
               end
          else None
      | EmptyStr => None
      end
  end.

(** A named group is an ordered alternation. *)
Definition group : Type := list (list char_class).

(** [(?P<d>3[0-1]|[1-2]\d|0[1-9]|[1-9]| [1-9])] *)
Definition re_d `{UnicodeData} : group :=
  [ [lit "3"; in_range "0" "1"];
    [in_range "1" "2"; is_digit];
    [lit "0"; in_range "1" "9"];
    [in_range "1" "9"];
    [lit " "; in_range "1" "9"] ].

(** [(?P<m>1[0-2]|0[1-9]|[1-9])] *)
Definition re_m : group :=
  [ [lit "1"; in_range "0" "2"];
    [lit "0"; in_range "1" "9"];
    [in_range "1" "9"] ].

(** [(?P<y>\d\d)] *)
Definition re_y `{UnicodeData} : group := [ [is_digit; is_digit] ].

Inductive item : Type :=
| Group (g : group)
| Lit (a : ascii).

(** [re.match]: the first way, in the order of the alternatives, to match
    the whole pattern at the start of [s]; the texts of the groups and
    the unmatched rest. *)
Fixpoint re_match (re : list item) (s : str)
  : option (list str * str) :=
  match re with
  | [] => Some ([], s)
  | Lit a :: re' =>
      match s with
      | Str b s' => if lit a b then re_match re' s' else None
      | EmptyStr => None
      end
  | Group g :: re' =>
      (fix alternatives (g : group) : option (list str * str) :=
         match g with
         | [] => None
         | alt :: g' =>
             match match_seq alt s with
             | Some (t, r) =>
                 match re_match re' r with
                 | Some (caps, rest) => Some (t :: caps, rest)
                 | None => alternatives g'
                 end
             | None => alternatives g'
             end
         end) g
  end.

(** The pattern of the format ["%d/%m/%y"]. *)
Definition format_regex `{UnicodeData} : list item :=
  [Group re_d; Lit "/"; Group re_m; Lit "/"; Group re_y].

Fixpoint int_digits `{UnicodeData} (acc : Z) (s : str) : option Z :=
  match s with
  | EmptyStr => Some acc
  | Str c s' =>
      match decimal c with
      | Some v => int_digits (10 * acc + v) s'
      | None => None
      end
  end.

Fixpoint lstrip (s : str) : str :=
  match s with
  | Str c s' => if lit " " c then lstrip s' else s
  | EmptyStr => s
  end.

(** [int(text)] on the text of a group: blanks, then decimal digits. *)
Definition int `{UnicodeData} (s : str) : option Z :=
  match lstrip s with
  | EmptyStr => None
  | t => int_digits 0 t
  end.

(** The century rule of [%y]. *)
Definition expand_year (y : Z) : Z :=
  if y <=? 68 then y + 2000 else y + 1900.

(** [datetime.strptime(data_string, "%d/%m/%y")]. Each failure is a
    [ValueError]. *)
Definition strptime `{UnicodeData} (data_string : str) : result datetime :=
  match re_match format_regex data_string with
  | None => Raise (ValueError "time data does not match format")
  | Some (caps, rest) =>
      match rest with
      | Str _ _ => Raise (ValueError "unconverted data remains")
      | EmptyStr =>
          match caps with
          | [d; m; y] =>
              match int d, int m, int y with
              | Some day, Some month, Some year =>
                  let dt := mkdatetime (expand_year year) month day in
                  if valid_date dt then Ok dt
                  else Raise (ValueError "day is out of range for month")
              | _, _, _ => Raise (ValueError "invalid literal for int()")
              end
          | _ => Raise (ValueError "time data does not match format")
          end
      end
  end.

End Strptime.

(* ================================================================= *)
(** ** The part of pydantic the models rely on *)

Module Pydantic.
Import Python.

(** What validating one field gives: a value, lines for the
    [ValidationError] of the model, or an exception that is not a
    validation failure and leaves the validation at once. *)
Inductive outcome (A : Type) : Type :=
| Valid (a : A)
| Invalid (errors : list ErrorDetails)
| Raised (e : exception).
Arguments Valid {A} a.
Arguments Invalid {A} errors.
Arguments Raised {A} e.

(** Two fields in declaration order: the lines of both are collected. *)
Definition both {A B : Type} (x : outcome A) (y : outcome B)
  : outcome (A * B) :=
  match x with
  | Raised e => Raised e
  | Valid a =>
      match y with
      | Valid b => Valid (a, b)
      | Invalid e2 => Invalid e2
      | Raised e => Raised e
      end
  | Invalid e1 =>
      match y with
      | Valid _ => Invalid e1
      | Invalid e2 => Invalid (e1 ++ e2)
      | Raised e => Raised e
      end
  end.

Definition map_outcome {A B : Type} (f : A -> B) (x : outcome A)
  : outcome B :=
  match x with
  | Valid a => Valid (f a)
  | Invalid e => Invalid e
  | Raised e => Raised e
  end.

(** A validator function called on [v] at [loc]: a [ValueError] becomes
    a line of type [value_error]; any other exception propagates. *)
Definition run_validator {A : Type} (f : value -> result A)
           (loc : list loc_item) (v : value) : outcome A :=
  match f v with
  | Ok a => Valid a
  | Raise (ValueError m) =>
      Invalid [mkError "value_error" loc ("Value error, " ++ m) v]
  | Raise e => Raised e
  end.

(** A validator function called after the integer validation, on the
    integer [z] that the input [v] was validated to; the line of a
    [ValueError] carries the input. *)
Definition run_after_validator (f : Z -> result Z) (loc : list loc_item)
           (v : value) (z : Z) : outcome Z :=
  match f z with
  | Ok a => Valid a
  | Raise (ValueError m) =>
      Invalid [mkError "value_error" loc ("Value error, " ++ m) v]
  | Raise e => Raised e
  end.

(** A required field of a dictionary. *)
Definition required {A : Type} (fields : list (str * value))
           (loc : list loc_item) (name : str)
           (validate : list loc_item -> value -> outcome A) : outcome A :=
  match dict_get name fields with
  | Some v => validate (loc ++ [LField name]) v
  | None =>
      Invalid [mkError "missing" (loc ++ [LField name]) "Field required"
                       (VDict fields)]
  end.

(** A [str] field. *)
Definition validate_str (loc : list loc_item) (v : value) : outcome str :=
  match v with
  | VStr s => Valid s
  | _ => Invalid [mkError "string_type" loc "Input should be a valid string" v]
  end.

(** The integer coercion of pydantic: integers are taken as they are;
    which other values it converts is left open. *)
Class IntCoercion : Type := {
  lax_int : value -> option Z;
  lax_int_VInt : forall z, lax_int (VInt z) = Some z
}.

(** An [int] field. *)
Definition validate_int `{IntCoercion} (loc : list loc_item) (v : value)
  : outcome Z :=
  match lax_int v with
  | Some z => Valid z
  | None =>
      Invalid [mkError "int_type" loc "Input should be a valid integer" v]
  end.

(** A [List[T]] field: the items in order, each at its index. *)
Fixpoint validate_items {A : Type}
         (validate : list loc_item -> value -> outcome A)
         (loc : list loc_item) (i : nat) (items : list value)
  : outcome (list A) :=
  match items with
  | [] => Valid []
  | v :: rest =>
      map_outcome (fun p => fst p :: snd p)
                  (both (validate (loc ++ [LIndex i]) v)
                        (validate_items validate loc (S i) rest))
  end.

Definition validate_list {A : Type}
           (validate : list loc_item -> value -> outcome A)
           (loc : list loc_item) (v : value) : outcome (list A) :=
  match v with
  | VList items => validate_items validate loc 0 items
  | _ => Invalid [mkError "list_type" loc "Input should be a valid list" v]
  end.

(** [model_validate]: the lines of all fields make one [ValidationError]. *)
Definition finish {A : Type} (x : outcome A) : result A :=
  match x with
  | Valid a => Ok a
  | Invalid errors => Raise (ValidationError errors)
  | Raised e => Raise e
  end.

End Pydantic.

(* ================================================================= *)
(** ** [class Comment], [class InstagramData] *)

Module Exercise.
Import Calendar Python Strptime Pydantic.

(** [class Comment(BaseModel)]. *)
Module Comment.

Record t : Set := mk { date : datetime; user : str; count : Z }.

(** [validate_dates(cls, v)], the [before] validator of [date]. *)
Definition validate_dates `{UnicodeData} (v : value) : result datetime :=
  match v with
  | VStr s =>
      match strptime s with
      | Ok d => Ok d
      | Raise (ValueError _) =>
          Raise (ValueError ("Invalid date format: " ++ s))
      | Raise e => Raise e
      end
  | _ => Raise TypeError
  end.

(** Validation of one [Comment] from a raw value. *)
Definition validate `{UnicodeData} `{IntCoercion} (loc : list loc_item)
           (v : value)
  : outcome t :=
  match v with
  | VDict fields =>
      map_outcome
        (fun p => mk (fst p) (fst (snd p)) (snd (snd p)))
        (both (required fields loc "date" (run_validator validate_dates))
        (both (required fields loc "user" validate_str)
              (required fields loc "count" validate_int)))
  | _ =>
      Invalid [mkError "model_type" loc
                 "Input should be a valid dictionary or instance of Comment"
                 v]
  end.

End Comment.

(** [class InstagramData(BaseModel)]. *)
Module InstagramData.

Record t : Set := mk {
  periodStart : datetime;
  periodEnd : datetime;
  monthlyPostingDay : Z;
  comments : list Comment.t
}.

(** [validate_dates(cls, v)], the [before] validator of [periodStart]
    and [periodEnd]. *)
Definition validate_dates `{UnicodeData} (v : value) : result datetime :=
  match v with
  | VStr s =>
      match strptime s with
      | Ok d => Ok d
      | Raise (ValueError _) =>
          Raise (ValueError ("Invalid date format: " ++ s))
      | Raise e => Raise e
      end
  | _ => Raise TypeError
  end.

(** [validate_day(cls, v)], run on the integer of
    [monthlyPostingDay]. *)
Definition validate_day (v : Z) : result Z :=
  if negb ((1 <=? v) && (v <=? 31))
  then Raise (ValueError "Monthly posting day must be between 1 and 31")
  else Ok v.

Definition is_list (v : value) : bool :=
  match v with VList _ => true | _ => false end.

(** [{"date": item[0], "user": item[1], "count": item[2]}]. *)
Definition triple_to_dict (item : value) : result value :=
  match item with
  | VList xs =>
      match list_get xs 0 with
      | Raise e => Raise e
      | Ok d =>
          match list_get xs 1 with
          | Raise e => Raise e
          | Ok u =>
              match list_get xs 2 with
              | Raise e => Raise e
              | Ok c =>
                  Ok (VDict [("date"%str, d); ("user"%str, u);
                             ("count"%str, c)])
              end
          end
      end
  | _ => Raise TypeError
  end.

(** The list comprehension of [convert_comments], item by item. *)
Fixpoint convert_items (v : list value) : result (list value) :=
  match v with
  | [] => Ok []
  | item :: rest =>
      match triple_to_dict item with
      | Raise e => Raise e
      | Ok d =>
          match convert_items rest with
          | Raise e => Raise e
          | Ok ds => Ok (d :: ds)
          end
      end
  end.

(** [convert_comments(cls, v)], the [before] validator of
    [comments]. *)
Definition convert_comments (v : value) : result value :=
  match v with
  | VList items =>
      if forallb is_list items
      then match convert_items items with
           | Ok ds => Ok (VList ds)
           | Raise e => Raise e
           end
      else Ok v
  | _ => Ok v
  end.

(** The [comments] field: [convert_comments], then [List[Comment]]. *)
Definition validate_comments `{UnicodeData} `{IntCoercion}
           (loc : list loc_item) (v : value) : outcome (list Comment.t) :=
  match run_validator convert_comments loc v with
  | Valid v' => validate_list Comment.validate loc v'
  | Invalid e => Invalid e
  | Raised e => Raised e
  end.

(** The [monthlyPostingDay] field: [int], then [validate_day]. *)
Definition validate_monthlyPostingDay `{IntCoercion}
           (loc : list loc_item) (v : value) : outcome Z :=
  match validate_int loc v with
  | Valid z => run_after_validator validate_day loc v z
  | Invalid e => Invalid e
  | Raised e => Raised e
  end.

(** [InstagramData.model_validate(raw)]. *)
Definition model_validate `{UnicodeData} `{IntCoercion} (raw : value)
  : result t :=
  match raw with
  | VDict fields =>
      finish
        (map_outcome
           (fun p => mk (fst p) (fst (snd p)) (fst (snd (snd p)))
                        (snd (snd (snd p))))
           (both (required fields [] "periodStart"
                           (run_validator validate_dates))
           (both (required fields [] "periodEnd"
                           (run_validator validate_dates))
           (both (required fields [] "monthlyPostingDay"
                           validate_monthlyPostingDay)
                 (required fields [] "comments" validate_comments)))))
  | _ =>
      Raise (ValidationError
               [mkError "model_type" []
                  "Input should be a valid dictionary or instance of InstagramData"
                  raw])
  end.

End InstagramData.

End Exercise.

(* ================================================================= *)
(** ** The polars operations of the aggregator *)

Module Polars.
Import Calendar Python.

(** [pl.date_range(start, end, eager=True)]: every day from [start] to
    [stop], both included; empty when [stop] is before [start]. *)
Definition date_range (start stop : Z) : list Z :=
  map (fun i => start + Z.of_nat i) (seq 0 (Z.to_nat (stop - start + 1))).

(** The rows of [right] whose key is the key of [l], in the order of
    [right]. *)
Definition matches {L R : Type} (key_l : L -> Z) (key_r : R -> Z)
           (right : list R) (l : L) : list R :=
  filter (fun r => key_r r =? key_l l) right.

(** What a left join makes of one row of the left frame: the row once
    per match; without a match, the row once, with nulls. *)
Definition join_row {L R : Type} (key_l : L -> Z) (key_r : R -> Z)
           (right : list R) (l : L) : list (L * option R) :=
  match matches key_l key_r right l with
  | [] => [(l, None)]
  | ms => map (fun r => (l, Some r)) ms
  end.

(** [left.join(right, on=key, how="left")]: the rows of [left] in
    order, each joined with its matches. *)
Definition join_left {L R : Type} (key_l : L -> Z) (key_r : R -> Z)
           (left : list L) (right : list R) : list (L * option R) :=
  flat_map (join_row key_l key_r right) left.

(** [fill_null(v)] on one cell. *)
Definition fill_null {A : Type} (v : A) (cell : option A) : A :=
  match cell with
  | Some a => a
  | None => v
  end.

(** The values of an integer column of [bits] bits, and the value that
    an integer wraps around to. *)
Definition within (bits : Z) (z : Z) : Prop :=
  - 2 ^ (bits - 1) <= z < 2 ^ (bits - 1).

Definition wrap (bits : Z) (z : Z) : Z :=
  (z + 2 ^ (bits - 1)) mod 2 ^ bits - 2 ^ (bits - 1).

Definition Int32 : Z -> Z := wrap 32.
Definition Int64 : Z -> Z := wrap 64.

(** [Series.sum] and [Expr.sum] on a column of type [dtype], [Int32] or
    [Int64]: the sum is of the type of the column, and wraps around. *)
Definition sum (dtype : Z -> Z) (column : list Z) : Z :=
  fold_right (fun a s => dtype (a + s)) 0 column.

Fixpoint is_sorted (column : list Z) : bool :=
  match column with
  | [] => true
  | a :: rest =>
      match rest with
      | [] => true
      | b :: _ => (a <=? b) && is_sorted rest
      end
  end.

(** The windows of [every] over rows in date order, [every] giving the
    lower bound of the window a date falls in: each row goes to the window
    of its date; a window without a row is not produced. *)
Fixpoint windows {R : Type} (every : Z -> Z) (date : R -> Z) (rows : list R)
  : list (Z * list R) :=
  match rows with
  | [] => []
  | r :: rest =>
      let w := every (date r) in
      match windows every date rest with
      | (w', members) :: ws =>
          if w =? w' then (w, r :: members) :: ws
          else (w, [r]) :: (w', members) :: ws
      | [] => [(w, [r])]
      end
  end.

(** [df.group_by_dynamic(index, every=...)]: the index column has to be
    sorted; each group carries the lower bound of its window. *)
Definition group_by_dynamic {R : Type} (date : R -> Z) (every : Z -> Z)
           (rows : list R) : result (list (Z * list R)) :=
  if is_sorted (map date rows) then Ok (windows every date rows)
  else Raise InvalidOperationError.

End Polars.

(* ================================================================= *)
(** ** [class ActivityAggregator] *)

Module Daily.
(** A row of [daily_data_df]: [date] is a [Date], [post_day] an [Int32],
    [num_comments] and [total_activities] are [Int64];
    [total_activities] is there once [calculate_daily_sums] has run. *)
Record row : Set := mk {
  date : Z;
  post_day : Z;
  num_comments : Z;
  total_activities : option Z
}.
End Daily.

Module Monthly.
(** A row of [monthly_data_df]: [num_posts] is an [Int32], [num_comments]
    an [Int64]. *)
Record row : Set := mk {
  month_date : Z;
  num_posts : Z;
  num_comments : Z
}.
End Monthly.

Module ActivityAggregator.
Import Calendar Python Polars Exercise.

Record t : Set := mk {
  ig_data : InstagramData.t;
  daily_data_df : list Daily.row;
  monthly_data_df : option (list Monthly.row)
}.

(** [comments_df]: the columns [date] (cast to [pl.Date]) and [count]. *)
Definition comments_df (ig : InstagramData.t) : list (Z * Z) :=
  map (fun c => (cast_date (Comment.date c), Comment.count c))
      (InstagramData.comments ig).

(** A row of the frame of dates, with the columns [post_day] (1 on a post
    day, 0 otherwise) and [num_comments] (0). *)
Definition calendar_row (ig : InstagramData.t) (d : Z) : Daily.row :=
  Daily.mk d
           (if dt_day d =? InstagramData.monthlyPostingDay ig then 1 else 0)
           0 None.

(** A row of the join: [count] with its nulls filled by 0 is added to
    [num_comments], which is 0, then dropped. *)
Definition add_count (p : Daily.row * option (Z * Z)) : Daily.row :=
  let r := fst p in
  let count := fill_null 0 (option_map snd (snd p)) in
  Daily.mk (Daily.date r) (Daily.post_day r) (Daily.num_comments r + count)
           (Daily.total_activities r).

(** [initialise_daily_data(self)]; it reads [self.ig_data] only. *)
Definition initialise_daily_data (ig : InstagramData.t) : list Daily.row :=
  let dates :=
    date_range (cast_date (InstagramData.periodStart ig))
               (cast_date (InstagramData.periodEnd ig)) in
  let df := map (calendar_row ig) dates in
  map add_count (join_left Daily.date fst df (comments_df ig)).

(** [__init__(self, ig_data)]. *)
Definition init (ig : InstagramData.t) : t :=
  mk ig (initialise_daily_data ig) None.

(** [calculate_daily_sums(self)]: the sum of the [Int32] column
    [post_day] and the [Int64] column [num_comments] is an [Int64]
    column. *)
Definition calculate_daily_sums (self : t) : t :=
  mk (ig_data self)
     (map (fun r =>
             Daily.mk (Daily.date r) (Daily.post_day r) (Daily.num_comments r)
                      (Some (Int64 (Daily.post_day r + Daily.num_comments r))))
          (daily_data_df self))
     (monthly_data_df self).

(** [calculate_monthly_aggregates(self)]: the monthly frame and the
    aggregator that now holds it. *)
Definition calculate_monthly_aggregates (self : t)
  : result (list Monthly.row * t) :=
  match group_by_dynamic Daily.date truncate_1mo (daily_data_df self) with
  | Raise e => Raise e
  | Ok groups =>
      let monthly_aggregate_df :=
        map (fun g =>
               Monthly.mk (fst g)
                          (sum Int32 (map Daily.post_day (snd g)))
                          (sum Int64 (map Daily.num_comments (snd g))))
            groups in
      Ok (monthly_aggregate_df,
          mk (ig_data self) (daily_data_df self) (Some monthly_aggregate_df))
  end.

End ActivityAggregator.

(* ================================================================= *)
(** ** Vocabulary of the specification *)

Module Spec.
Import Calendar Python Polars Exercise.

(** The first and the last day of the activity period, as polars dates. *)
Definition first_day (ig : InstagramData.t) : Z :=
  cast_date (InstagramData.periodStart ig).

Definition last_day (ig : InstagramData.t) : Z :=
  cast_date (InstagramData.periodEnd ig).

(** A valid activity period: [periodStart <= periodEnd]. *)
Definition valid_period (ig : InstagramData.t) : Prop :=
  0 <= days_between (InstagramData.periodStart ig) (InstagramData.periodEnd ig).

(** A comment event dated on day [d]. *)
Definition dated (d : Z) (c : Comment.t) : bool :=
  cast_date (Comment.date c) =? d.

(** A comment event dated within the period. *)
Definition in_period (ig : InstagramData.t) (c : Comment.t) : bool :=
  (first_day ig <=? cast_date (Comment.date c)) &&
  (cast_date (Comment.date c) <=? last_day ig).


(** The sum of integers, as integers are added: without a bound. *)
Definition total (column : list Z) : Z := fold_right Z.add 0 column.

(** The sum of the counts of comment events. *)
Definition total_count (cs : list Comment.t) : Z :=
  total (map Comment.count cs).

(** The rows of a daily frame dated on day [d]. *)
Definition rows_on (d : Z) (df : list Daily.row) : list Daily.row :=
  filter (fun r => Daily.date r =? d) df.

(** The rows the daily frame holds for day [d]. *)
Definition day_rows (ig : InstagramData.t) (d : Z) : list Daily.row :=
  map ActivityAggregator.add_count
      (join_row Daily.date fst (ActivityAggregator.comments_df ig)
                (ActivityAggregator.calendar_row ig d)).

(** The columns [calculate_monthly_aggregates] is specified on. *)
Definition source_columns (r : Daily.row) : Z * Z * Z :=
  (Daily.date r, Daily.post_day r, Daily.num_comments r).

(** The rows of a daily frame dated in the month that begins on day
    [w]. *)
Definition month_rows (w : Z) (df : list Daily.row) : list Daily.row :=
  filter (fun r => truncate_1mo (Daily.date r) =? w) df.

(** The monthly frame of a daily frame in date order. *)
Definition aggregate (df : list Daily.row) : list Monthly.row :=
  map (fun g => Monthly.mk (fst g) (sum Int32 (map Daily.post_day (snd g)))
                           (sum Int64 (map Daily.num_comments (snd g))))
      (windows truncate_1mo Daily.date df).

(** The frame that [calculate_monthly_aggregates] returns, without the
    aggregator. *)
Definition monthly_frame (r : result (list Monthly.row * ActivityAggregator.t))
  : result (list Monthly.row) :=
  match r with
  | Ok p => Ok (fst p)
  | Raise e => Raise e
  end.

End Spec.

(* ================================================================= *)
(** ** The day/month/two-digit-year pattern *)

Module DateText.
Import Calendar Python Strptime.
Local Open Scope str_scope.

(** The decimal digit [v] in ASCII as a text, and a number below 100 on
    two ASCII digits. *)
Definition digit (v : Z) : str := Str (Z.to_N (48 + v)) "".

Definition two_digits (v : Z) : str := digit (v / 10) ++ digit (v mod 10).

(** The ways to write a month: [5] or [05] below 10, two digits from 10
    on, in ASCII digits. *)
Definition month_texts (m : Z) : list str :=
  if (m <? 10)%Z then [digit m; "0" ++ digit m] else [two_digits m].

Section Texts.
Context `{UnicodeData}.

(** The ways to write a day: [5], [05] or blank-[5] below 10, in ASCII
    digits; from 10 to 29, [1] or [2] in ASCII and any decimal digit;
    [30] and [31] in ASCII digits. *)
Definition day_text (ds : str) (d : Z) : Prop :=
  if (d <? 10)%Z then In ds [digit d; "0" ++ digit d; " " ++ digit d]
  else if (d <? 30)%Z
       then exists c, decimal c = Some (d mod 10) /\
                      ds = digit (d / 10) ++ Str c ""
       else ds = two_digits d.

(** The ways to write a two-digit year: any two decimal digits. *)
Definition year_text (ys : str) (y : Z) : Prop :=
  exists c1 c2, decimal c1 = Some (y / 10) /\ decimal c2 = Some (y mod 10) /\
                ys = Str c1 (Str c2 "").

(** [s] writes day [d], month [m] and the two-digit year [y], with
    slashes between them. *)
Definition date_text (s : str) (d m y : Z) : Prop :=
  1 <= d <= 31 /\ 1 <= m <= 12 /\ 0 <= y <= 99 /\
  exists ds ms ys,
    day_text ds d /\ In ms (month_texts m) /\ year_text ys y /\
    s = ds ++ "/" ++ ms ++ "/" ++ ys.

End Texts.

(** The year a two-digit year stands for: 2000 to 2068, 1969 to 1999. *)
Definition century (y : Z) : Z :=
  if (y <=? 68)%Z then 2000 + y else 1900 + y.

(** The date [s] names, when it writes a date that exists. *)
Definition names_date `{UnicodeData} (s : str) (dt : datetime) : Prop :=
  exists d m y,
    date_text s d m y /\ dt = mkdatetime (century y) m d /\
    valid_date dt = true.

(** The numbers from [lo], [n] of them. *)
Definition numbers (lo : Z) (n : nat) : list Z :=
  map (fun i => lo + Z.of_nat i) (seq 0 n).

(** One alternative of a group tried: its match if the rest of the
    pattern matches after it, [otherwise] if not. *)
Definition try_alt (alt : list char_class) (re : list item) (s : str)
           (otherwise : option (list str * str))
  : option (list str * str) :=
  match match_seq alt s with
  | Some (t, r) =>
      match re_match re r with
      | Some (caps, rest) => Some (t :: caps, rest)
      | None => otherwise
      end
  | None => otherwise
  end.

(** What a group hands on when the rest of the pattern matches or not. *)
Definition capture (t : str) (r : option (list str * str))
  : option (list str * str) :=
  match r with
  | Some (caps, rest) => Some (t :: caps, rest)
  | None => None
  end.

End DateText.

(* ================================================================= *)
(** ** The two forms of a comment *)

Module CommentForms.
Import Calendar Python Strptime Exercise DateText.
Local Open Scope str_scope.

(** The three fields of a comment event as they arrive. *)
Definition fields : Type := value * value * value.

(** The fixed-order triple [[date, author, count]]. *)
Definition triple (e : fields) : value :=
  VList [fst (fst e); snd (fst e); snd e].

(** The object with named fields. *)
Definition object (e : fields) : value :=
  VDict [("date", fst (fst e)); ("user", snd (fst e)); ("count", snd e)].

Definition is_dict (v : value) : bool :=
  match v with VDict _ => true | _ => false end.

(** Well-formed fields: a date text, an author, an integer count. *)
Definition well_formed (e : str * str * Z) : fields :=
  (VStr (fst (fst e)), VStr (snd (fst e)), VInt (snd e)).

(** The comment event that well-formed fields stand for. *)
Definition stands_for `{UnicodeData} (e : str * str * Z) (c : Comment.t)
  : Prop :=
  names_date (fst (fst e)) (Comment.date c) /\
  Comment.user c = snd (fst e) /\
  Comment.count c = snd e.

End CommentForms.

(* ================================================================= *)
(** ** Inputs of the module and of its tests *)

Module Samples.
Import Calendar Python Strptime Pydantic Exercise.
Local Open Scope str_scope.

(** A part of the Unicode table: beyond ASCII, the Arabic-Indic digits,
    U+0660 to U+0669. *)
#[export] Instance arabic_indic : UnicodeData.
Proof.
  refine {| decimal_beyond_ascii := fun c =>
              if ((1632 <=? c) && (c <=? 1641))%N
              then Some (Z.of_N c - 1632) else None |}.
  intros c v. destruct ((1632 <=? c)%N && (c <=? 1641)%N) eqn:E;
    [| discriminate].
  apply andb_true_iff in E. rewrite !N.leb_le in E.
  intros Hv. injection Hv as <-. lia.
Defined.

(** An integer coercion that takes integers only. *)
#[export] Instance int_only : IntCoercion := {|
  lax_int := fun v => match v with VInt z => Some z | _ => None end;
  lax_int_VInt := fun z => eq_refl
|}.

(** The record of the [__main__] block. *)
Definition raw_main : value :=
  VDict [("periodStart", VStr "15/02/11");
         ("periodEnd", VStr "30/08/21");
         ("monthlyPostingDay", VInt 11);
         ("comments",
          VList [VList [VStr "2/3/21"; VStr "Justin Bieber"; VInt 5];
                 VList [VStr "5/4/21"; VStr "Lady Gaga"; VInt 6];
                 VList [VStr "5/4/21"; VStr "Snoop Dog"; VInt 2];
                 VList [VStr "13/5/21"; VStr "Justin Bieber"; VInt 3]])].

(** What [InstagramData.model_validate] makes of it. *)
Definition ig_main : InstagramData.t :=
  InstagramData.mk
    (mkdatetime 2011 2 15) (mkdatetime 2021 8 30) 11
    [Comment.mk (mkdatetime 2021 3 2) "Justin Bieber" 5;
     Comment.mk (mkdatetime 2021 4 5) "Lady Gaga" 6;
     Comment.mk (mkdatetime 2021 4 5) "Snoop Dog" 2;
     Comment.mk (mkdatetime 2021 5 13) "Justin Bieber" 3].

(** The record of [test_calculate_monthly_aggregates], validated. *)
Definition ig_quarter : InstagramData.t :=
  InstagramData.mk
    (mkdatetime 2021 1 1) (mkdatetime 2021 3 31) 11
    [Comment.mk (mkdatetime 2021 1 11) "Justin Bieber" 5;
     Comment.mk (mkdatetime 2021 2 11) "Lady Gaga" 6;
     Comment.mk (mkdatetime 2021 3 11) "Snoop Dogg" 7].

(** February 2021 with posts on the 31st, and a comment after the
    period. *)
Definition ig_february : InstagramData.t :=
  InstagramData.mk
    (mkdatetime 2021 2 1) (mkdatetime 2021 2 28) 31
    [Comment.mk (mkdatetime 2021 2 11) "Lady Gaga" 6;
     Comment.mk (mkdatetime 2021 3 11) "Snoop Dogg" 7].

(** A comments array of triples, the same array of objects, and one that
    mixes the two forms. *)
Definition triples : value :=
  VList [VList [VStr "2/3/21"; VStr "Justin Bieber"; VInt 5];
         VList [VStr "5/4/21"; VStr "Lady Gaga"; VInt 6]].

Definition objects : value :=
  VList [VDict [("date", VStr "2/3/21"); ("user", VStr "Justin Bieber");
                ("count", VInt 5)];
         VDict [("date", VStr "5/4/21"); ("user", VStr "Lady Gaga");
                ("count", VInt 6)]].

Definition mixed : value :=
  VList [VList [VStr "2/3/21"; VStr "Justin Bieber"; VInt 5];
         VDict [("date", VStr "5/4/21"); ("user", VStr "Lady Gaga");
                ("count", VInt 6)]].

(** One day, a posting day, with a comment of the largest count an
    [Int64] holds. *)
Definition ig_largest_count : InstagramData.t :=
  InstagramData.mk
    (mkdatetime 2021 2 11) (mkdatetime 2021 2 11) 11
    [Comment.mk (mkdatetime 2021 2 11) "Lady Gaga" 9223372036854775807].

(** January 2021 with two comments of 2^62 each. *)
Definition ig_large_counts : InstagramData.t :=
  InstagramData.mk
    (mkdatetime 2021 1 1) (mkdatetime 2021 1 31) 11
    [Comment.mk (mkdatetime 2021 1 1) "Justin Bieber" 4611686018427387904;
     Comment.mk (mkdatetime 2021 1 2) "Lady Gaga" 4611686018427387904].

End Samples.

(* ================================================================= *)
(** ** Further vocabulary: texts, lists and totals *)

Module More.
Import Calendar Python Polars Exercise Spec DateText CommentForms.
Local Open Scope str_scope.

(** A date written as [strftime("%d/%m/%y")] writes it: day, month and
    the last two digits of the year, on two digits each. *)
Definition ddmmyy (dt : datetime) : str :=
  two_digits (day dt) ++ "/" ++ two_digits (month dt) ++ "/" ++
  two_digits (year dt mod 100).

(** A list that begins with the three fields of a comment and goes on
    with [more]. *)
Definition long_triple (e : fields * list value) : value :=
  VList (fst (fst (fst e)) :: snd (fst (fst e)) :: snd (fst e) :: snd e).

(** A list with fewer than three items. *)
Definition short_list (v : value) : bool :=
  match v with
  | VList xs => (List.length xs <? 3)%nat
  | _ => false
  end.

(** The column [total_activities] of a row, 0 where it is not there. *)
Definition total_or_zero (r : Daily.row) : Z :=
  match Daily.total_activities r with
  | Some t => t
  | None => 0
  end.



End More.

(* ================================================================= *)
(** ** Facts about the calendar *)

Module CalendarFacts.
Import Calendar.

Ltac month_table :=
  cbv beta iota zeta
      delta [days_before_month days_in_month DAYS_IN_MONTH DAYS_BEFORE_MONTH
             andb Z.ltb Z.eqb Pos.eqb Z.compare Pos.compare Pos.compare_cont].

Lemma is_leap_spec y :
  is_leap y = true <-> y mod 4 = 0 /\ (y mod 100 <> 0 \/ y mod 400 = 0).
Proof.
  unfold is_leap.
  rewrite andb_true_iff, orb_true_iff, negb_true_iff, !Z.eqb_eq, Z.eqb_neq.
  tauto.
Qed.

(** A property checked on every number below a bound. *)
Lemma forall_below (P : Z -> bool) (N : nat) :
  forallb P (map Z.of_nat (seq 0 N)) = true ->
  forall r, 0 <= r < Z.of_nat N -> P r = true.
Proof.
  intros H r Hr. rewrite forallb_forall in H. apply H.
  apply in_map_iff. exists (Z.to_nat r). split; [lia |].
  apply in_seq. lia.
Qed.

Lemma month_and_day_spec (leapyear : bool) n :
  0 <= n < 365 + (if leapyear then 1 else 0) ->
  month_and_day_ok leapyear n = true.
Proof.
  intros H. destruct leapyear.
  - apply (forall_below (month_and_day_ok true) 366); [now vm_compute | lia].
  - apply (forall_below (month_and_day_ok false) 365); [now vm_compute | lia].
Qed.

Lemma days_in_month_table y m :
  1 <= m <= 12 ->
  days_in_month y m =
  DAYS_IN_MONTH m + (if (m =? 2) && is_leap y then 1 else 0).
Proof.
  intros H.
  assert (Hm : m = 1 \/ m = 2 \/ m = 3 \/ m = 4 \/ m = 5 \/ m = 6 \/
               m = 7 \/ m = 8 \/ m = 9 \/ m = 10 \/ m = 11 \/ m = 12) by lia.
  destruct (is_leap y) eqn:E;
  repeat (destruct Hm as [Hm | Hm]; [subst m; month_table; rewrite ?E; reflexivity |]);
    subst m; month_table; rewrite ?E; reflexivity.
Qed.

Lemma days_before_month_table y m :
  1 <= m <= 12 ->
  days_before_month y m =
  DAYS_BEFORE_MONTH m + (if (2 <? m) && is_leap y then 1 else 0).
Proof.
  intros H.
  assert (Hm : m = 1 \/ m = 2 \/ m = 3 \/ m = 4 \/ m = 5 \/ m = 6 \/
               m = 7 \/ m = 8 \/ m = 9 \/ m = 10 \/ m = 11 \/ m = 12) by lia.
  unfold days_before_month.
  repeat (destruct Hm as [Hm | Hm]; [subst m; reflexivity |]);
    subst m; reflexivity.
Qed.

Lemma valid_date_spec d :
  valid_date d = true <->
  1 <= month d <= 12 /\ 1 <= day d <= days_in_month (year d) (month d).
Proof. unfold valid_date. rewrite !andb_true_iff, !Z.leb_le. tauto. Qed.

Lemma days_before_year_succ y :
  days_before_year (y + 1) =
  days_before_year y + 365 + (if is_leap y then 1 else 0).
Proof.
  unfold days_before_year. cbv zeta.
  replace (y + 1 - 1) with y by lia.
  destruct (is_leap y) eqn:E.
  - apply is_leap_spec in E.
    Z.to_euclidean_division_equations; lia.
  - assert (H : ~ (y mod 4 = 0 /\ (y mod 100 <> 0 \/ y mod 400 = 0))).
    { intros H. apply is_leap_spec in H. congruence. }
    Z.to_euclidean_division_equations; lia.
Qed.

Lemma days_in_month_pos y m : 1 <= m <= 12 -> 28 <= days_in_month y m <= 31.
Proof.
  intros H. assert (m = 1 \/ m = 2 \/ m = 3 \/ m = 4 \/ m = 5 \/ m = 6 \/
                    m = 7 \/ m = 8 \/ m = 9 \/ m = 10 \/ m = 11 \/ m = 12)
    as Hm by lia.
  unfold days_in_month.
  repeat (destruct Hm as [-> | Hm]; [try destruct (is_leap y); lia |]).
  subst. lia.
Qed.

Lemma month_cases m :
  1 <= m <= 12 ->
  m = 1 \/ m = 2 \/ m = 3 \/ m = 4 \/ m = 5 \/ m = 6 \/
  m = 7 \/ m = 8 \/ m = 9 \/ m = 10 \/ m = 11 \/ m = 12.
Proof. lia. Qed.

Lemma next_day_valid d : valid_date d = true -> valid_date (next_day d) = true.
Proof.
  rewrite !valid_date_spec. intros [Hm Hd]. unfold next_day.
  destruct (day d <? _) eqn:E1; simpl.
  - apply Z.ltb_lt in E1. lia.
  - destruct (month d <? 12) eqn:E2; simpl.
    + apply Z.ltb_lt in E2.
      pose proof (days_in_month_pos (year d) (month d + 1)). lia.
    + lia.
Qed.

Lemma toordinal_next_day d :
  valid_date d = true -> toordinal (next_day d) = toordinal d + 1.
Proof.
  rewrite valid_date_spec. intros [Hm Hd]. destruct d as [y m dd]; simpl in *.
  unfold next_day, toordinal; simpl.
  destruct (dd <? days_in_month y m) eqn:E1; simpl; [lia |].
  apply Z.ltb_ge in E1. assert (dd = days_in_month y m) by lia. subst dd.
  destruct (m <? 12) eqn:E2; simpl.
  - apply Z.ltb_lt in E2.
    assert (Hc : m = 1 \/ m = 2 \/ m = 3 \/ m = 4 \/ m = 5 \/ m = 6 \/
                 m = 7 \/ m = 8 \/ m = 9 \/ m = 10 \/ m = 11) by lia.
    unfold days_before_month, days_in_month.
    repeat (destruct Hc as [-> | Hc];
            [simpl; destruct (is_leap y); simpl; lia |]).
    subst m. simpl; destruct (is_leap y); simpl; lia.
  - apply Z.ltb_ge in E2. assert (m = 12) by lia. subst m.
    rewrite days_before_year_succ.
    unfold days_before_month, days_in_month. simpl.
    destruct (is_leap y); simpl; lia.
Qed.

Lemma days_before_year_mono y y' :
  y <= y' -> days_before_year y <= days_before_year y'.
Proof.
  intros H. unfold days_before_year. cbv zeta.
  Z.to_euclidean_division_equations; lia.
Qed.

Lemma day_of_year_bounds d :
  valid_date d = true ->
  1 <= days_before_month (year d) (month d) + day d
    <= 365 + (if is_leap (year d) then 1 else 0).
Proof.
  rewrite valid_date_spec. intros [Hm Hd]. destruct d as [y m dd]; simpl in *.
  apply month_cases in Hm. revert Hd.
  unfold days_before_month, days_in_month.
  destruct (is_leap y);
    repeat (destruct Hm as [-> | Hm]; [month_table; intros; lia |]);
    subst; month_table; intros; lia.
Qed.

Lemma days_before_month_step y m m' :
  1 <= m -> m < m' -> m' <= 12 ->
  days_before_month y m + days_in_month y m <= days_before_month y m'.
Proof.
  intros H1 H2 H3.
  assert (Hm : 1 <= m <= 12) by lia. assert (Hm' : 1 <= m' <= 12) by lia.
  apply month_cases in Hm. apply month_cases in Hm'.
  unfold days_before_month, days_in_month.
  destruct (is_leap y);
    repeat (destruct Hm as [-> | Hm]; [| try (subst m)]);
    repeat (destruct Hm' as [-> | Hm']; [| try (subst m')]);
    month_table; lia.
Qed.

(** [toordinal] separates the dates that exist. *)
Lemma toordinal_inj d d' :
  valid_date d = true -> valid_date d' = true ->
  toordinal d = toordinal d' -> d = d'.
Proof.
  intros V V' H.
  pose proof (day_of_year_bounds d V) as B.
  pose proof (day_of_year_bounds d' V') as B'.
  apply valid_date_spec in V. apply valid_date_spec in V'.
  destruct d as [y m dd], d' as [y' m' dd']; unfold toordinal in H;
    cbn [year month day] in *.
  assert (Hy : y = y').
  { destruct (Z.lt_trichotomy y y') as [L | [E | L]]; [| exact E |].
    - pose proof (days_before_year_mono (y + 1) y' ltac:(lia)) as M.
      rewrite days_before_year_succ in M. lia.
    - pose proof (days_before_year_mono (y' + 1) y ltac:(lia)) as M.
      rewrite days_before_year_succ in M. lia. }
  subst y'.
  assert (Hm : m = m').
  { destruct (Z.lt_trichotomy m m') as [L | [E | L]]; [| exact E |].
    - pose proof (days_before_month_step y m m'). lia.
    - pose proof (days_before_month_step y m' m). lia. }
  subst m'. f_equal. lia.
Qed.


(** The cycle counters of [ord2ymd] and the year they give. *)
Lemma year_of_cycles n n400 n100 n4 n1 r :
  0 <= n100 <= 3 -> 0 <= n4 <= 24 -> 0 <= n1 <= 3 ->
  0 <= r ->
  n = n400 * 146097 + n100 * 36524 + n4 * 1461 + n1 * 365 + r ->
  let y := n400 * 400 + 1 + n100 * 100 + n4 * 4 + n1 in
  days_before_year y + r = n /\
  (is_leap y = ((n1 =? 3) && (negb (n4 =? 24) || (n100 =? 3)))).
Proof.
  intros H100 H4 H1 Hr Hn y. split.
  - unfold days_before_year. cbv zeta. subst y.
    Z.to_euclidean_division_equations; lia.
  - apply eq_true_iff_eq. rewrite is_leap_spec.
    rewrite andb_true_iff, orb_true_iff, negb_true_iff, !Z.eqb_eq, Z.eqb_neq.
    subst y. Z.to_euclidean_division_equations; lia.
Qed.

Lemma year_end_of_cycles n n400 n100 n4 n1 :
  0 <= n100 <= 4 -> 0 <= n4 <= 24 -> 0 <= n1 <= 4 ->
  n = n400 * 146097 + n100 * 36524 + n4 * 1461 + n1 * 365 ->
  n1 = 4 \/ n100 = 4 ->
  (n100 = 4 -> n4 = 0 /\ n1 = 0) ->
  n4 * 1461 + n1 * 365 < 36524 ->
  let y := n400 * 400 + 1 + n100 * 100 + n4 * 4 + n1 in
  days_before_year y = n + 1.
Proof.
  intros H100 H4 H1 Hn He Hz Hc y.
  unfold days_before_year. cbv zeta. subst y.
  Z.to_euclidean_division_equations; lia.
Qed.

(** [ord2ymd] gives a date that exists, whose ordinal is the one it was
    given. *)
Lemma ord2ymd_spec o :
  valid_date (ord2ymd o) = true /\ toordinal (ord2ymd o) = o.
Proof.
  unfold ord2ymd. cbv zeta.
  set (n0 := o - 1).
  set (n400 := n0 / 146097). set (r1 := n0 mod 146097).
  set (n100 := r1 / 36524). set (r2 := r1 mod 36524).
  set (n4 := r2 / 1461). set (r3 := r2 mod 1461).
  set (n1 := r3 / 365). set (r := r3 mod 365).
  assert (E1 : n0 = n400 * 146097 + r1 /\ 0 <= r1 < 146097).
  { subst n400 r1. Z.to_euclidean_division_equations; lia. }
  assert (E2 : r1 = n100 * 36524 + r2 /\ 0 <= r2 < 36524).
  { subst n100 r2. Z.to_euclidean_division_equations; lia. }
  assert (E3 : r2 = n4 * 1461 + r3 /\ 0 <= r3 < 1461).
  { subst n4 r3. Z.to_euclidean_division_equations; lia. }
  assert (E4 : r3 = n1 * 365 + r /\ 0 <= r < 365).
  { subst n1 r. Z.to_euclidean_division_equations; lia. }
  clearbody n400 r1 n100 r2 n4 r3 n1 r.
  set (y := n400 * 400 + 1 + n100 * 100 + n4 * 4 + n1).
  destruct ((n1 =? 4) || (n100 =? 4)) eqn:Edge.
  - apply orb_true_iff in Edge. rewrite !Z.eqb_eq in Edge.
    pose proof (year_end_of_cycles n0 n400 n100 n4 n1
                  ltac:(lia) ltac:(lia) ltac:(lia) ltac:(lia) Edge
                  ltac:(lia) ltac:(lia)) as Hy.
    fold y in Hy.
    pose proof (days_before_year_succ (y - 1)) as Hs.
    replace (y - 1 + 1) with y in Hs by lia.
    split.
    + reflexivity.
    + unfold toordinal. cbn [year month day].
      rewrite days_before_month_table by lia.
      change (DAYS_BEFORE_MONTH 12) with 334.
      change (2 <? 12) with true. cbn [andb].
      cbv zeta in Hy. subst n0. clearbody y.
      destruct (is_leap (y - 1)); lia.
  - apply orb_false_iff in Edge. rewrite !Z.eqb_neq in Edge.
    destruct (year_of_cycles n0 n400 n100 n4 n1 r
                ltac:(lia) ltac:(lia) ltac:(lia) ltac:(lia) ltac:(lia))
      as [Hy Hl].
    cbv zeta in Hy, Hl. fold y in Hy, Hl. rewrite <- Hl.
    assert (Hr : 0 <= r < 365 + (if is_leap y then 1 else 0)).
    { destruct (is_leap y) eqn:El; [| lia].
      symmetry in Hl. apply andb_true_iff in Hl. rewrite Z.eqb_eq in Hl.
      lia. }
    pose proof (month_and_day_spec (is_leap y) r Hr) as Hmd.
    unfold month_and_day_ok in Hmd. cbv zeta in Hmd.
    destruct (month_and_day (is_leap y) r) as [m d]. cbn [fst snd] in *.
    rewrite !andb_true_iff, !Z.leb_le, Z.eqb_eq in Hmd.
    destruct Hmd as [[[[Hm1 Hm2] Hd1] Hd2] Hsum].
    split.
    + apply valid_date_spec. cbn [year month day].
      rewrite days_in_month_table by lia. lia.
    + unfold toordinal. cbn [year month day].
      rewrite days_before_month_table by lia. subst n0. lia.
Qed.

Lemma civil_from_days_valid n : valid_date (civil_from_days n) = true.
Proof. apply ord2ymd_spec. Qed.

Lemma toordinal_civil n :
  toordinal (civil_from_days n) = n + epoch_ordinal.
Proof. apply ord2ymd_spec. Qed.

(** The day count of the calendar date of [n] is [n]. *)
Lemma cast_date_civil n : cast_date (civil_from_days n) = n.
Proof. unfold cast_date. rewrite toordinal_civil. ring. Qed.

Lemma civil_from_days_inj a b :
  civil_from_days a = civil_from_days b -> a = b.
Proof.
  intros H. rewrite <- (cast_date_civil a), <- (cast_date_civil b).
  now rewrite H.
Qed.

(** One more day is one step of [next_day]. *)
Lemma civil_from_days_succ n :
  civil_from_days (n + 1) = next_day (civil_from_days n).
Proof.
  apply toordinal_inj.
  - apply civil_from_days_valid.
  - apply next_day_valid, civil_from_days_valid.
  - rewrite toordinal_next_day by apply civil_from_days_valid.
    rewrite !toordinal_civil. ring.
Qed.

(** The calendar date of the day count of a date that exists is that
    date. *)
Lemma civil_cast_date d :
  valid_date d = true -> civil_from_days (cast_date d) = d.
Proof.
  intros V. apply toordinal_inj; [apply civil_from_days_valid | exact V |].
  rewrite toordinal_civil. unfold cast_date. ring.
Qed.

Lemma dt_day_pos n : 1 <= dt_day n.
Proof.
  pose proof (civil_from_days_valid n) as V.
  apply valid_date_spec in V. unfold dt_day. lia.
Qed.

(** A day of month never exceeds the length of its month. *)
Lemma dt_day_le_days_in_month n :
  dt_day n <= days_in_month (dt_year n) (dt_month n).
Proof.
  pose proof (civil_from_days_valid n) as V.
  apply valid_date_spec in V. unfold dt_day, dt_year, dt_month. lia.
Qed.

(** Walking back inside a month keeps year and month. *)
Lemma civil_from_days_back n k :
  0 <= k < dt_day n ->
  civil_from_days (n - k) =
  mkdatetime (dt_year n) (dt_month n) (dt_day n - k).
Proof.
  intros [Hk Hlt]. revert Hlt. pattern k. apply natlike_ind; auto.
  - intros _. rewrite !Z.sub_0_r. unfold dt_year, dt_month, dt_day.
    now destruct (civil_from_days n).
  - intros x Hx IH Hlt. specialize (IH ltac:(lia)).
    pose proof (civil_from_days_succ (n - Z.succ x)) as Hs.
    replace (n - Z.succ x + 1) with (n - x) in Hs by lia.
    rewrite IH in Hs.
    pose proof (civil_from_days_valid (n - Z.succ x)) as V.
    apply valid_date_spec in V.
    destruct (civil_from_days (n - Z.succ x)) as [y m dd]; simpl in *.
    unfold next_day in Hs; simpl in Hs.
    destruct (dd <? days_in_month y m).
    + inversion Hs. f_equal. lia.
    + destruct (m <? 12); inversion Hs; lia.
Qed.

(** The month window of a date begins [dt_day - 1] days before it. *)
Lemma truncate_1mo_eq n : truncate_1mo n = n - (dt_day n - 1).
Proof.
  pose proof (dt_day_pos n) as P.
  pose proof (civil_from_days_back n (dt_day n - 1) ltac:(lia)) as H.
  replace (dt_day n - (dt_day n - 1)) with 1 in H by lia.
  unfold truncate_1mo. rewrite <- H. apply cast_date_civil.
Qed.

Lemma truncate_1mo_le n : truncate_1mo n <= n.
Proof. rewrite truncate_1mo_eq. pose proof (dt_day_pos n). lia. Qed.

(** The lower bound of a month window is the first day of that month. *)
Lemma civil_truncate_1mo n :
  civil_from_days (truncate_1mo n) = mkdatetime (dt_year n) (dt_month n) 1.
Proof.
  pose proof (dt_day_pos n) as P.
  rewrite truncate_1mo_eq.
  rewrite (civil_from_days_back n (dt_day n - 1)) by lia.
  f_equal. lia.
Qed.

Lemma truncate_1mo_succ n :
  truncate_1mo (n + 1) = truncate_1mo n \/ truncate_1mo (n + 1) = n + 1.
Proof.
  rewrite !truncate_1mo_eq. unfold dt_day.
  rewrite civil_from_days_succ.
  destruct (civil_from_days n) as [y m dd]. unfold next_day; simpl.
  destruct (dd <? days_in_month y m); simpl; [left; lia |].
  destruct (m <? 12); simpl; right; lia.
Qed.

Lemma truncate_1mo_mono a b : a <= b -> truncate_1mo a <= truncate_1mo b.
Proof.
  intros H. replace b with (a + (b - a)) by lia.
  assert (Hk : 0 <= b - a) by lia. revert Hk. generalize (b - a).
  intros k Hk. pattern k. apply natlike_ind; auto.
  - rewrite Z.add_0_r. lia.
  - intros x Hx IH. replace (a + Z.succ x) with (a + x + 1) by lia.
    pose proof (truncate_1mo_le (a + x)).
    destruct (truncate_1mo_succ (a + x)); lia.
Qed.

(** Two dates have the same month window exactly when they agree on year
    and month. *)
Lemma truncate_1mo_same_month a b :
  truncate_1mo a = truncate_1mo b <->
  dt_year a = dt_year b /\ dt_month a = dt_month b.
Proof.
  split.
  - intros H. pose proof (civil_truncate_1mo a) as Ha.
    rewrite H, civil_truncate_1mo in Ha. inversion Ha; auto.
  - intros [Hy Hm]. unfold truncate_1mo. now rewrite Hy, Hm.
Qed.


End CalendarFacts.

(* ================================================================= *)
(** ** Facts about the polars operations *)

Module PolarsFacts.
Import Calendar CalendarFacts Python Polars Spec.

Lemma total_app a b : total (a ++ b) = total a + total b.
Proof. unfold total. induction a as [| x a IH]; simpl; lia. Qed.

Lemma total_cons x a : total (x :: a) = x + total a.
Proof. reflexivity. Qed.

(** *** Wrap-around *)

Section Wrap.
Variable bits : Z.
Hypothesis bits_pos : 0 < bits.

Lemma pow_bits : 2 ^ bits = 2 * 2 ^ (bits - 1).
Proof.
  replace bits with (Z.succ (bits - 1)) at 1 by lia.
  apply Z.pow_succ_r. lia.
Qed.

(** A value of the column type is not changed. *)
Lemma wrap_within z : within bits z -> wrap bits z = z.
Proof.
  unfold within, wrap. intros Hz. rewrite pow_bits.
  rewrite Z.mod_small; lia.
Qed.

(** What a value wraps around to is a value of the column type. *)
Lemma within_wrap z : within bits (wrap bits z).
Proof.
  unfold within, wrap. rewrite pow_bits.
  assert (Hp : 0 < 2 ^ (bits - 1)) by (apply Z.pow_pos_nonneg; lia).
  pose proof (Z.mod_pos_bound (z + 2 ^ (bits - 1)) (2 * 2 ^ (bits - 1))).
  lia.
Qed.

Lemma wrap_add_r a b : wrap bits (a + wrap bits b) = wrap bits (a + b).
Proof.
  unfold wrap. f_equal.
  replace (a + ((b + 2 ^ (bits - 1)) mod 2 ^ bits - 2 ^ (bits - 1))
           + 2 ^ (bits - 1))
    with (a + (b + 2 ^ (bits - 1)) mod 2 ^ bits) by lia.
  rewrite Zplus_mod_idemp_r. f_equal. lia.
Qed.

(** The sum of a column is what the sum of its integers wraps around
    to. *)
Lemma sum_wrap column : sum (wrap bits) column = wrap bits (total column).
Proof.
  induction column as [| a column IH].
  - cbn [sum total fold_right]. symmetry. apply wrap_within.
    unfold within. assert (0 < 2 ^ (bits - 1)) by (apply Z.pow_pos_nonneg; lia).
    lia.
  - cbn [sum total fold_right] in *. fold (sum (wrap bits) column).
    fold (total column). rewrite IH. apply wrap_add_r.
Qed.

(** A column whose integers sum to a value of its type sums to that. *)
Lemma sum_within column :
  within bits (total column) -> sum (wrap bits) column = total column.
Proof. intros H. rewrite sum_wrap. now apply wrap_within. Qed.

End Wrap.

Lemma sum_Int32 column : sum Int32 column = Int32 (total column).
Proof. apply sum_wrap. lia. Qed.

Lemma sum_Int64 column : sum Int64 column = Int64 (total column).
Proof. apply sum_wrap. lia. Qed.

Lemma Int32_within z : within 32 z -> Int32 z = z.
Proof. apply wrap_within. lia. Qed.

Lemma Int64_within z : within 64 z -> Int64 z = z.
Proof. apply wrap_within. lia. Qed.

Lemma date_range_In start stop d :
  In d (date_range start stop) <-> start <= d <= stop.
Proof.
  unfold date_range. rewrite in_map_iff. split.
  - intros [i [<- Hi]]. apply in_seq in Hi. lia.
  - intros H. exists (Z.to_nat (d - start)). split; [lia |].
    apply in_seq. lia.
Qed.


Lemma date_range_empty start stop :
  stop < start -> date_range start stop = [].
Proof.
  intros H. unfold date_range.
  replace (Z.to_nat (stop - start + 1)) with 0%nat by lia. reflexivity.
Qed.

(** A range is its first day followed by the range from the next day. *)
Lemma date_range_cons start stop :
  start <= stop ->
  date_range start stop = start :: date_range (start + 1) stop.
Proof.
  intros H. unfold date_range.
  replace (Z.to_nat (stop - start + 1))
    with (S (Z.to_nat (stop - (start + 1) + 1))) by lia.
  cbn [seq map]. f_equal; [lia |].
  rewrite <- seq_shift, map_map. apply map_ext. intros i. lia.
Qed.

(** Induction along a range of dates. *)
Lemma date_range_ind (P : Z -> list Z -> Prop) (stop : Z) :
  (forall start, stop < start -> P start []) ->
  (forall start, start <= stop ->
                 P (start + 1) (date_range (start + 1) stop) ->
                 P start (start :: date_range (start + 1) stop)) ->
  forall start, P start (date_range start stop).
Proof.
  intros Hnil Hcons start.
  remember (Z.to_nat (stop - start + 1)) as k eqn:Hk.
  revert start Hk. induction k as [| k IH]; intros start Hk.
  - rewrite date_range_empty by lia. apply Hnil. lia.
  - rewrite date_range_cons by lia. apply Hcons; [lia |].
    apply IH. lia.
Qed.

Lemma is_sorted_cons a l :
  is_sorted (a :: l) = true <->
  (forall b, In b l -> a <= b) /\ is_sorted l = true.
Proof.
  revert a. induction l as [| b l IH]; intros a.
  - simpl. split; [intros _; split; [intros ? [] | reflexivity] | reflexivity].
  - change (is_sorted (a :: b :: l)) with ((a <=? b) && is_sorted (b :: l)).
    rewrite andb_true_iff, Z.leb_le. split.
    + intros [Hab Hs]. split; [| exact Hs].
      intros c [<- | Hc]; [exact Hab |].
      apply IH in Hs. destruct Hs as [Hb _]. specialize (Hb c Hc). lia.
    + intros [Hall Hs]. split; [apply Hall; now left | exact Hs].
Qed.

Lemma is_sorted_app a b :
  is_sorted a = true -> is_sorted b = true ->
  (forall x y, In x a -> In y b -> x <= y) ->
  is_sorted (a ++ b) = true.
Proof.
  induction a as [| x a IH]; intros Ha Hb Hab; [exact Hb |].
  rewrite <- app_comm_cons. apply is_sorted_cons.
  apply is_sorted_cons in Ha. destruct Ha as [Hx Ha]. split.
  - intros y Hy. apply in_app_or in Hy. destruct Hy as [Hy | Hy].
    + now apply Hx.
    + apply Hab; [now left | exact Hy].
  - apply IH; auto. intros u v Hu Hv. apply Hab; [now right | exact Hv].
Qed.

Lemma is_sorted_constant d l :
  (forall x, In x l -> x = d) -> is_sorted l = true.
Proof.
  induction l as [| x l IH]; intros H; [reflexivity |].
  apply is_sorted_cons. split.
  - intros b Hb. rewrite (H x), (H b); [lia | now right | now left].
  - apply IH. intros y Hy. apply H. now right.
Qed.

(** *** The left join *)

Section Join.
Context {L R : Type} (key_l : L -> Z) (key_r : R -> Z).

Local Abbreviation matches := (matches key_l key_r).
Local Abbreviation join_row := (join_row key_l key_r).

Lemma join_left_cons l left right :
  join_left key_l key_r (l :: left) right =
  join_row right l ++ join_left key_l key_r left right.
Proof. reflexivity. Qed.

Lemma join_row_fst right l p : In p (join_row right l) -> fst p = l.
Proof.
  unfold Polars.join_row. destruct (matches right l) as [| m ms].
  - intros [<- | []]. reflexivity.
  - intros H. apply in_map_iff in H. destruct H as [r [<- _]]. reflexivity.
Qed.

Lemma join_row_not_nil right l : join_row right l <> [].
Proof.
  unfold Polars.join_row. destruct (matches right l); discriminate.
Qed.

(** Every row of the join comes from a row of the left frame, and every
    row of the left frame is kept. *)
Lemma join_left_In left right p :
  In p (join_left key_l key_r left right) ->
  In (fst p) left.
Proof.
  unfold join_left. rewrite in_flat_map. intros [l [Hl Hp]].
  apply join_row_fst in Hp. now subst.
Qed.

Lemma join_left_keeps left right l :
  In l left -> exists c, In (l, c) (join_left key_l key_r left right).
Proof.
  intros Hl. pose proof (join_row_not_nil right l) as Hn.
  destruct (join_row right l) as [| p ps] eqn:E; [congruence |].
  pose proof (join_row_fst right l p) as Hp.
  rewrite E in Hp. specialize (Hp (or_introl eq_refl)).
  destruct p as [l' c]. simpl in Hp. subst l'.
  exists c. unfold join_left. apply in_flat_map. exists l. split; auto.
  rewrite E. now left.
Qed.

(** When no two rows of the right frame share a key, a row of the left
    frame has one match at most. *)
Lemma matches_unique_keys right l :
  NoDup (map key_r right) -> (List.length (matches right l) <= 1)%nat.
Proof.
  intros Hnd. unfold Polars.matches.
  induction right as [| r right IHr]; [simpl; lia |].
  inversion Hnd as [| ? ? Hr Hnd']; subst. simpl.
  destruct (key_r r =? key_l l) eqn:E.
  - apply Z.eqb_eq in E.
    assert (Hno : filter (fun r0 => key_r r0 =? key_l l) right = []).
    { destruct (filter _ right) as [| x xs] eqn:F; [reflexivity |].
      exfalso. apply Hr.
      assert (Hx : In x (filter (fun r0 => key_r r0 =? key_l l) right))
        by (rewrite F; now left).
      apply filter_In in Hx. destruct Hx as [Hx Hk].
      apply Z.eqb_eq in Hk. rewrite E, <- Hk. now apply in_map. }
    rewrite Hno. simpl. lia.
  - now apply IHr.
Qed.

(** Then the join has the rows of the left frame, one each. *)
Lemma join_left_unique_keys left right :
  NoDup (map key_r right) ->
  map fst (join_left key_l key_r left right) = left.
Proof.
  intros Hnd. induction left as [| l left IH]; [reflexivity |].
  rewrite join_left_cons, map_app, IH. clear IH.
  pose proof (matches_unique_keys right l Hnd) as Hone.
  unfold Polars.join_row. destruct (matches right l) as [| m [| m' ms]];
    simpl in *; [reflexivity | reflexivity | lia].
Qed.

End Join.

End PolarsFacts.

(* ================================================================= *)
(** ** The daily frame *)

Module DailyFacts.
Import Calendar CalendarFacts Python Polars PolarsFacts Exercise Spec.
Import ActivityAggregator.

(** The daily frame, day by day. *)
Lemma initialise_daily_data_by_day ig :
  initialise_daily_data ig =
  flat_map (day_rows ig) (date_range (first_day ig) (last_day ig)).
Proof.
  unfold initialise_daily_data, first_day, last_day. cbv zeta.
  generalize (date_range (cast_date (InstagramData.periodStart ig))
                         (cast_date (InstagramData.periodEnd ig))).
  intros dates. induction dates as [| d dates IH]; [reflexivity |].
  cbn [map]. rewrite join_left_cons, map_app, IH. reflexivity.
Qed.

Lemma matches_comments_df ig d :
  matches Daily.date fst (comments_df ig) (calendar_row ig d) =
  map (fun c => (cast_date (Comment.date c), Comment.count c))
      (filter (dated d) (InstagramData.comments ig)).
Proof.
  unfold matches, comments_df. cbn [Daily.date calendar_row].
  induction (InstagramData.comments ig) as [| c cs IH]; [reflexivity |].
  cbn [map filter fst]. unfold dated at 1.
  destruct (cast_date (Comment.date c) =? d); cbn [map]; now rewrite IH.
Qed.

(** The rows of one day: none of them when no comment is dated that day,
    otherwise one per comment of that day, with the count of that
    comment. *)
Lemma day_rows_eq ig d :
  day_rows ig d =
  match filter (dated d) (InstagramData.comments ig) with
  | [] => [Daily.mk d (Daily.post_day (calendar_row ig d)) 0 None]
  | cs => map (fun c => Daily.mk d (Daily.post_day (calendar_row ig d))
                                 (Comment.count c) None) cs
  end.
Proof.
  unfold day_rows, join_row. rewrite matches_comments_df.
  destruct (filter (dated d) (InstagramData.comments ig)) as [| c cs];
    [reflexivity |].
  cbn [map]. rewrite !map_map. reflexivity.
Qed.

Lemma day_rows_In ig d r :
  In r (day_rows ig d) ->
  Daily.date r = d /\
  Daily.post_day r =
    (if dt_day d =? InstagramData.monthlyPostingDay ig then 1 else 0) /\
  Daily.total_activities r = None.
Proof.
  rewrite day_rows_eq.
  destruct (filter (dated d) (InstagramData.comments ig)) as [| c cs].
  - intros [<- | []]. auto.
  - intros H. apply in_map_iff in H. destruct H as [c' [<- _]]. auto.
Qed.

Lemma day_rows_not_nil ig d : day_rows ig d <> [].
Proof.
  rewrite day_rows_eq.
  destruct (filter (dated d) (InstagramData.comments ig)); discriminate.
Qed.

Lemma day_rows_sum ig d :
  total (map Daily.num_comments (day_rows ig d)) =
  total_count (filter (dated d) (InstagramData.comments ig)).
Proof.
  rewrite day_rows_eq. unfold total_count.
  destruct (filter (dated d) (InstagramData.comments ig)) as [| c cs];
    [reflexivity |].
  rewrite map_map. reflexivity.
Qed.

Lemma initialise_daily_data_In ig r :
  In r (initialise_daily_data ig) <->
  exists d, first_day ig <= d <= last_day ig /\ In r (day_rows ig d).
Proof.
  rewrite initialise_daily_data_by_day, in_flat_map.
  split; intros [d [Hd Hr]]; exists d; (split; [| exact Hr]).
  - exact (proj1 (date_range_In _ _ d) Hd).
  - exact (proj2 (date_range_In _ _ d) Hd).
Qed.

(** Every row is dated within the period. *)
Lemma initialise_daily_data_dates ig r :
  In r (initialise_daily_data ig) ->
  first_day ig <= Daily.date r <= last_day ig.
Proof.
  rewrite initialise_daily_data_In. intros [d [Hd Hr]].
  apply day_rows_In in Hr. destruct Hr as [-> _]. exact Hd.
Qed.

(** Every day of the period has a row. *)
Lemma initialise_daily_data_covers ig d :
  first_day ig <= d <= last_day ig ->
  exists r, In r (initialise_daily_data ig) /\ Daily.date r = d.
Proof.
  intros Hd. pose proof (day_rows_not_nil ig d) as Hn.
  destruct (day_rows ig d) as [| r rs] eqn:E; [congruence |].
  assert (Hr : In r (day_rows ig d)) by (rewrite E; now left).
  exists r. split.
  - apply (proj2 (initialise_daily_data_In ig r)). now exists d.
  - exact (proj1 (day_rows_In ig d r Hr)).
Qed.

(** The frame is in date order. *)
Lemma initialise_daily_data_sorted ig :
  is_sorted (map Daily.date (initialise_daily_data ig)) = true.
Proof.
  rewrite initialise_daily_data_by_day.
  generalize (first_day ig). intros start.
  assert (H : is_sorted (map Daily.date
                (flat_map (day_rows ig) (date_range start (last_day ig))))
              = true /\
              forall x, In x (map Daily.date
                (flat_map (day_rows ig) (date_range start (last_day ig)))) ->
                        start <= x).
  { pattern start, (date_range start (last_day ig)).
    apply date_range_ind.
    - intros s _. split; [reflexivity | intros x []].
    - intros s Hs [IH1 IH2]. cbn [flat_map]. rewrite map_app. split.
      + apply is_sorted_app; [| exact IH1 |].
        * apply (is_sorted_constant s). intros x Hx.
          apply in_map_iff in Hx. destruct Hx as [r [<- Hr]].
          exact (proj1 (day_rows_In ig s r Hr)).
        * intros x y Hx Hy. apply in_map_iff in Hx.
          destruct Hx as [r [<- Hr]]. apply day_rows_In in Hr.
          destruct Hr as [-> _]. specialize (IH2 y Hy). lia.
      + intros x Hx. apply in_app_or in Hx. destruct Hx as [Hx | Hx].
        * apply in_map_iff in Hx. destruct Hx as [r [<- Hr]].
          apply day_rows_In in Hr. destruct Hr as [-> _]. lia.
        * specialize (IH2 x Hx). lia. }
  apply H.
Qed.

(** The counts of the comments of day [start] and of those of the later
    days of a period. *)
Lemma total_count_split start stop cs :
  start <= stop ->
  total_count (filter (dated start) cs) +
  total_count (filter (fun c => (start + 1 <=? cast_date (Comment.date c)) &&
                                (cast_date (Comment.date c) <=? stop)) cs) =
  total_count (filter (fun c => (start <=? cast_date (Comment.date c)) &&
                                (cast_date (Comment.date c) <=? stop)) cs).
Proof.
  intros H. unfold total_count, dated.
  induction cs as [| c cs IH]; [reflexivity |].
  cbn [filter]. set (k := cast_date (Comment.date c)).
  destruct (Z.eqb_spec k start); destruct (Z.leb_spec (start + 1) k);
    destruct (Z.leb_spec k stop); destruct (Z.leb_spec start k);
    cbn [andb map]; rewrite ?total_cons; lia.
Qed.

Lemma total_count_by_day cs stop start :
  total (map (fun d => total_count (filter (dated d) cs))
           (date_range start stop)) =
  total_count (filter (fun c => (start <=? cast_date (Comment.date c)) &&
                                (cast_date (Comment.date c) <=? stop)) cs).
Proof.
  pattern start, (date_range start stop). apply date_range_ind.
  - intros s Hs. cbn [map]. unfold total_count.
    assert (E : filter (fun c => (s <=? cast_date (Comment.date c)) &&
                                 (cast_date (Comment.date c) <=? stop)) cs = []).
    { induction cs as [| c cs IH]; [reflexivity |]. cbn [filter].
      destruct (s <=? cast_date (Comment.date c)) eqn:E1;
        destruct (cast_date (Comment.date c) <=? stop) eqn:E2;
        cbn [andb]; auto.
      apply Z.leb_le in E1. apply Z.leb_le in E2. lia. }
    rewrite E. reflexivity.
  - intros s Hs IH. cbn [map]. rewrite total_cons, IH.
    now apply total_count_split.
Qed.

Lemma sum_flat_map_day_rows ig dates :
  total (map Daily.num_comments (flat_map (day_rows ig) dates)) =
  total (map (fun d => total_count (filter (dated d) (InstagramData.comments ig)))
           dates).
Proof.
  induction dates as [| d dates IH]; [reflexivity |].
  cbn [flat_map map]. rewrite map_app, total_app, total_cons, IH, day_rows_sum.
  reflexivity.
Qed.

(** The comments of a daily frame total to the counts of the comments dated
    within the period. *)
Lemma initialise_daily_data_sum ig :
  total (map Daily.num_comments (initialise_daily_data ig)) =
  total_count (filter (in_period ig) (InstagramData.comments ig)).
Proof.
  rewrite initialise_daily_data_by_day, sum_flat_map_day_rows.
  apply total_count_by_day.
Qed.




End DailyFacts.

(* ================================================================= *)
(** ** The monthly frame *)

Module MonthlyFacts.
Import Calendar CalendarFacts Python Polars PolarsFacts Exercise Spec.
Import ActivityAggregator.

Section Windows.
Context {R : Type} (every : Z -> Z) (date : R -> Z).
Hypothesis every_mono : forall a b, a <= b -> every a <= every b.

Local Abbreviation windows := (windows every date).

Lemma windows_cons r rows :
  windows (r :: rows) =
  match windows rows with
  | (w', members) :: ws =>
      if every (date r) =? w' then (every (date r), r :: members) :: ws
      else (every (date r), [r]) :: (w', members) :: ws
  | [] => [(every (date r), [r])]
  end.
Proof. reflexivity. Qed.

(** The windows, put end to end, are the rows. *)
Lemma windows_concat rows :
  List.concat (map snd (windows rows)) = rows.
Proof.
  induction rows as [| r rows IH]; [reflexivity |].
  rewrite windows_cons. destruct (windows rows) as [| [w' members] ws].
  - cbn in IH. subst rows. reflexivity.
  - destruct (every (date r) =? w'); cbn [map snd List.concat] in *;
      rewrite <- IH; reflexivity.
Qed.

(** A window has a row, and its rows are those of its month. *)
Lemma windows_members rows w members :
  In (w, members) (windows rows) ->
  members <> [] /\
  forall r, In r members -> every (date r) = w.
Proof.
  revert w members. induction rows as [| r rows IH]; intros w members;
    [intros [] |].
  rewrite windows_cons. destruct (windows rows) as [| [w' members'] ws].
  - intros [H | []]. inversion H; subst. split; [discriminate |].
    intros x [<- | []]. reflexivity.
  - destruct (every (date r) =? w') eqn:E.
    + apply Z.eqb_eq in E. intros [H | H].
      * inversion H; subst. split; [discriminate |].
        intros x [<- | Hx]; [reflexivity |].
        destruct (IH (every (date r)) members' (or_introl eq_refl))
          as [_ Hm].
        now apply Hm.
      * apply IH. right; assumption.
    + intros [H | H].
      * inversion H; subst. split; [discriminate |].
        intros x [<- | []]. reflexivity.
      * now apply IH.
Qed.

(** The first window is the one of the first row. *)
Lemma windows_head r rows :
  exists members ws,
    windows (r :: rows) = (every (date r), members) :: ws.
Proof.
  rewrite windows_cons. destruct (windows rows) as [| [w' members'] ws].
  - now exists [r], [].
  - destruct (every (date r) =? w'); eauto.
Qed.

(** Over rows in date order the windows come in strictly ascending
    order. *)
Lemma windows_ascending rows :
  is_sorted (map date rows) = true ->
  Sorted Z.lt (map fst (windows rows)).
Proof.
  induction rows as [| r rows IH]; intros Hs; [constructor |].
  cbn [map] in Hs. apply is_sorted_cons in Hs. destruct Hs as [Hr Hs].
  specialize (IH Hs).
  destruct rows as [| r' rows'].
  - cbn. repeat constructor.
  - destruct (windows_head r' rows') as [members [ws E]].
    assert (Hle : every (date r) <= every (date r')).
    { apply every_mono. apply Hr. left; reflexivity. }
    rewrite (windows_cons r (r' :: rows')). rewrite E in IH |- *.
    destruct (every (date r) =? every (date r')) eqn:Eq.
    + apply Z.eqb_eq in Eq. cbn [map fst] in *. rewrite Eq. exact IH.
    + apply Z.eqb_neq in Eq. cbn [map fst] in *.
      constructor; [exact IH |]. constructor. lia.
Qed.

(** Every row is in the window of its month. *)
Lemma windows_covers rows r :
  In r rows ->
  exists members,
    In (every (date r), members) (windows rows) /\ In r members.
Proof.
  intros Hr. rewrite <- (windows_concat rows) in Hr.
  apply in_concat in Hr. destruct Hr as [members [Hm Hr]].
  apply in_map_iff in Hm. destruct Hm as [[w ms] [E Hw]]. cbn in E. subst ms.
  destruct (windows_members rows w members Hw) as [_ Hall].
  rewrite (Hall r Hr). eauto.
Qed.

(** A column summed window by window sums to the column. *)
Lemma windows_sum (col : R -> Z) rows :
  total (map (fun g => total (map col (snd g))) (windows rows)) =
  total (map col rows).
Proof.
  rewrite <- (windows_concat rows) at 2.
  induction (windows rows) as [| g gs IH]; [reflexivity |].
  cbn [map List.concat]. rewrite map_app, total_app, total_cons, IH.
  reflexivity.
Qed.

End Windows.

Section WindowRows.
Context {R : Type} (every : Z -> Z) (date : R -> Z).
Hypothesis every_mono : forall a b, a <= b -> every a <= every b.

Local Abbreviation windows := (Polars.windows every date).

Lemma windows_nil rows : windows rows = [] -> rows = [].
Proof.
  intros H. rewrite <- (windows_concat every date rows), H. reflexivity.
Qed.

Lemma windows_member_In rows w members r :
  In (w, members) (windows rows) -> In r members -> In r rows.
Proof.
  intros Hw Hr. rewrite <- (windows_concat every date rows).
  apply in_concat. exists members. split; [| exact Hr].
  apply in_map_iff. now exists (w, members).
Qed.

(** Over rows in date order no window begins before the one of the first
    row. *)
Lemma windows_lower r rows w members :
  is_sorted (map date (r :: rows)) = true ->
  In (w, members) (windows (r :: rows)) -> every (date r) <= w.
Proof.
  intros Hs Hw.
  destruct (windows_members every date _ _ _ Hw) as [Hne Hall].
  destruct members as [| x members]; [congruence |].
  rewrite <- (Hall x (or_introl eq_refl)). apply every_mono.
  pose proof (windows_member_In _ _ _ x Hw (or_introl eq_refl)) as Hx.
  cbn [map] in Hs. apply is_sorted_cons in Hs. destruct Hs as [Hle _].
  destruct Hx as [<- | Hx]; [lia |].
  apply Hle. now apply in_map.
Qed.

Lemma sorted_lt_head a l x : Sorted Z.lt (a :: l) -> In x l -> a < x.
Proof.
  intros Hs Hx. apply Sorted_StronglySorted in Hs.
  - apply StronglySorted_inv in Hs. destruct Hs as [_ Hall].
    rewrite Forall_forall in Hall. now apply Hall.
  - intros p q t. apply Z.lt_trans.
Qed.

(** Over rows in date order the rows of a window are all the rows whose
    date falls in it, in their order. *)
Lemma windows_filter rows w members :
  is_sorted (map date rows) = true ->
  In (w, members) (windows rows) ->
  members = filter (fun r => every (date r) =? w) rows.
Proof.
  revert w members. induction rows as [| r rows IH]; intros w members Hs Hw;
    [destruct Hw |].
  pose proof Hs as Hs'. cbn [map] in Hs'. apply is_sorted_cons in Hs'.
  destruct Hs' as [Hle Hrest].
  rewrite windows_cons in Hw. cbn [filter].
  destruct (windows rows) as [| [w' members'] ws] eqn:E.
  - apply windows_nil in E. subst rows.
    destruct Hw as [Hw | []]. injection Hw as <- <-.
    now rewrite Z.eqb_refl.
  - assert (Hw' : every (date r) <= w').
    { destruct rows as [| r' rows']; [discriminate |].
      destruct (windows_head every date r' rows') as [m0 [ws0 E0]].
      rewrite E in E0. injection E0 as -> _ _.
      apply every_mono. apply Hle. left; reflexivity. }
    pose proof (windows_ascending every date every_mono rows Hrest) as Hasc.
    rewrite E in Hasc. cbn [map fst] in Hasc.
    assert (Hkeys : forall x ms, In (x, ms) ws -> w' < x).
    { intros x ms Hx. apply (sorted_lt_head w' (map fst ws)); [exact Hasc |].
      apply in_map_iff. now exists (x, ms). }
    destruct (Z.eqb_spec (every (date r)) w') as [Heq | Hne].
    + destruct Hw as [Hw | Hw].
      * injection Hw as <- <-. rewrite Z.eqb_refl. f_equal.
        rewrite Heq. apply IH; [exact Hrest | left; reflexivity].
      * pose proof (Hkeys _ _ Hw) as Hlt.
        destruct (Z.eqb_spec (every (date r)) w); [lia |].
        apply IH; [exact Hrest | right; assumption].
    + destruct Hw as [Hw | Hw].
      * injection Hw as <- <-. rewrite Z.eqb_refl. f_equal.
        symmetry.
        assert (Hnone : forall x, In x rows -> every (date x) <> every (date r)).
        { intros x Hx Heq.
          destruct rows as [| r' rows']; [destruct Hx |].
          destruct (windows_covers every date _ x Hx) as [ms [Hin _]].
          pose proof (windows_lower r' rows' _ ms Hrest Hin) as Hlow.
          destruct (windows_head every date r' rows') as [m0 [ws0 E0]].
          rewrite E in E0. injection E0 as E0 _ _. lia. }
        clear - Hnone. induction rows as [| x rows IHr]; [reflexivity |].
        cbn [filter]. destruct (Z.eqb_spec (every (date x)) (every (date r))).
        -- exfalso. apply (Hnone x); [left; reflexivity | assumption].
        -- apply IHr. intros y Hy. apply Hnone. right; assumption.
      * assert (Hlt : w' <= w).
        { destruct Hw as [Hw | Hw]; [injection Hw as <- _; lia |].
          pose proof (Hkeys _ _ Hw). lia. }
        destruct (Z.eqb_spec (every (date r)) w); [lia |].
        apply IH; assumption.
Qed.

End WindowRows.

(** The windows of a frame computed on other rows with the same dates. *)
Lemma windows_map {A B : Type} (every : Z -> Z) (date_a : A -> Z)
      (date_b : B -> Z) (f : A -> B) rows :
  (forall r, date_b (f r) = date_a r) ->
  Polars.windows every date_b (map f rows) =
  map (fun g => (fst g, map f (snd g))) (Polars.windows every date_a rows).
Proof.
  intros H. induction rows as [| r rows IH]; [reflexivity |].
  cbn [map]. rewrite !windows_cons, IH, H.
  destruct (Polars.windows every date_a rows) as [| [w' members] ws];
    [reflexivity |].
  cbn [map fst snd].
  destruct (every (date_a r) =? w'); reflexivity.
Qed.

Lemma monthly_frame_eq self :
  monthly_frame (calculate_monthly_aggregates self) =
  if is_sorted (map Daily.date (daily_data_df self))
  then Ok (aggregate (daily_data_df self))
  else Raise InvalidOperationError.
Proof.
  unfold calculate_monthly_aggregates, group_by_dynamic.
  destruct (is_sorted _); reflexivity.
Qed.

Lemma calculate_monthly_aggregates_sorted self :
  is_sorted (map Daily.date (daily_data_df self)) = true ->
  calculate_monthly_aggregates self =
  Ok (aggregate (daily_data_df self),
      mk (ig_data self) (daily_data_df self)
         (Some (aggregate (daily_data_df self)))).
Proof.
  intros H. unfold calculate_monthly_aggregates, group_by_dynamic.
  rewrite H. reflexivity.
Qed.

(** The monthly frame is a function of the source columns. *)
Lemma aggregate_source_columns df df' :
  map source_columns df = map source_columns df' ->
  aggregate df = aggregate df'.
Proof.
  intros H.
  assert (E : forall d, aggregate d =
     map (fun g => Monthly.mk (fst g)
                     (sum Int32 (map (fun t => snd (fst t)) (snd g)))
                     (sum Int64 (map snd (snd g))))
         (Polars.windows truncate_1mo (fun t => fst (fst t))
                         (map source_columns d))).
  { intros d. unfold aggregate.
    rewrite (windows_map truncate_1mo Daily.date (fun t => fst (fst t))
                         source_columns)
      by reflexivity.
    rewrite map_map. apply map_ext. intros [w ms]. cbn [fst snd].
    rewrite !map_map. reflexivity. }
  rewrite !E, H. reflexivity.
Qed.

(** The row of a month holds the sums over the daily rows of the month,
    as the types of the columns hold them. *)
Lemma aggregate_rows df m :
  is_sorted (map Daily.date df) = true ->
  In m (aggregate df) ->
  Monthly.num_posts m =
    Int32 (total (map Daily.post_day (month_rows (Monthly.month_date m) df))) /\
  Monthly.num_comments m =
    Int64 (total (map Daily.num_comments
                      (month_rows (Monthly.month_date m) df))).
Proof.
  intros Hs Hm. unfold aggregate in Hm. apply in_map_iff in Hm.
  destruct Hm as [[w ms] [<- Hin]].
  cbn [Monthly.num_posts Monthly.num_comments Monthly.month_date fst snd].
  rewrite (windows_filter truncate_1mo Daily.date truncate_1mo_mono df w ms
             Hs Hin).
  rewrite sum_Int32, sum_Int64. split; reflexivity.
Qed.

(** The rows of the months, put end to end, are the rows. *)
Lemma aggregate_months df (col : Daily.row -> Z) :
  is_sorted (map Daily.date df) = true ->
  total (map (fun m => total (map col (month_rows (Monthly.month_date m) df)))
             (aggregate df)) =
  total (map col df).
Proof.
  intros Hs. rewrite <- (windows_sum truncate_1mo Daily.date col df).
  unfold aggregate. rewrite map_map. f_equal.
  apply map_ext_in. intros [w ms] Hin. cbn [Monthly.month_date fst snd].
  rewrite (windows_filter truncate_1mo Daily.date truncate_1mo_mono df w ms
             Hs Hin).
  reflexivity.
Qed.

End MonthlyFacts.

(* ================================================================= *)
(** ** The claims on the aggregator *)

Module AggregatorClaims.
Import Calendar CalendarFacts Python Polars PolarsFacts Exercise Spec.
Import ActivityAggregator DailyFacts MonthlyFacts.

(** When no two comments share a date, the daily frame has one row per
    day of the period, and the row of a day carries the count of the
    comment of that day, or 0. *)
Lemma initialise_daily_data_distinct_dates ig :
  NoDup (map (fun c => cast_date (Comment.date c)) (InstagramData.comments ig)) ->
  map Daily.date (initialise_daily_data ig) =
    date_range (first_day ig) (last_day ig) /\
  forall r, In r (initialise_daily_data ig) ->
            Daily.num_comments r =
            total_count (filter (dated (Daily.date r))
                                (InstagramData.comments ig)).
Proof.
  intros Hnd. split.
  - unfold initialise_daily_data. cbv zeta.
    rewrite map_map.
    rewrite (map_ext (fun x => Daily.date (add_count x))
                     (fun x => Daily.date (fst x))) by reflexivity.
    rewrite <- (map_map fst Daily.date), join_left_unique_keys.
    + rewrite map_map. cbn [calendar_row Daily.date]. apply map_id.
    + unfold comments_df. rewrite map_map. exact Hnd.
  - intros r Hr.
    destruct (proj1 (initialise_daily_data_In ig r) Hr) as [d [Hd Hr']].
    clear Hr. rename Hr' into Hr.
    pose proof (day_rows_In ig d r Hr) as [Hdate _]. rewrite Hdate.
    rewrite <- day_rows_sum.
    assert (Hone : exists x, day_rows ig d = [x]).
    { pose proof (matches_unique_keys Daily.date fst (comments_df ig)
                    (calendar_row ig d)) as Hm.
      unfold comments_df at 1 in Hm. rewrite map_map in Hm.
      specialize (Hm Hnd). rewrite matches_comments_df, length_map in Hm.
      rewrite day_rows_eq.
      destruct (filter (dated d) (InstagramData.comments ig))
        as [| c [| c' cs]];
        [eexists; reflexivity | eexists; reflexivity | cbn in Hm; lia]. }
    destruct Hone as [x Hx]. rewrite Hx in Hr |- *.
    destruct Hr as [<- | []]. cbn. unfold total. cbn. lia.
Qed.



(** C4, amended: after [calculate_daily_sums] every row has for
    [total_activities] the [Int64] that [post_day + num_comments] wraps
    around to, which is [post_day + num_comments] when that is within
    64 bits; a second run changes nothing; the columns [date], [post_day]
    and [num_comments], the number of rows and the rest of the aggregator
    are as before. *)
Theorem calculate_daily_sums_total self :
  (forall r, In r (daily_data_df (calculate_daily_sums self)) ->
     Daily.total_activities r =
       Some (Int64 (Daily.post_day r + Daily.num_comments r)) /\
     (within 64 (Daily.post_day r + Daily.num_comments r) ->
      Daily.total_activities r =
        Some (Daily.post_day r + Daily.num_comments r))) /\
  calculate_daily_sums (calculate_daily_sums self) = calculate_daily_sums self /\
  map source_columns (daily_data_df (calculate_daily_sums self)) =
    map source_columns (daily_data_df self) /\
  ig_data (calculate_daily_sums self) = ig_data self /\
  monthly_data_df (calculate_daily_sums self) = monthly_data_df self.
Proof.
  unfold calculate_daily_sums. cbn [daily_data_df ig_data monthly_data_df].
  split; [| repeat split].
  - intros r Hr. apply in_map_iff in Hr. destruct Hr as [x [<- _]].
    cbn [Daily.total_activities Daily.post_day Daily.num_comments].
    split; [reflexivity |].
    intros Hw. rewrite (Int64_within _ Hw). reflexivity.
  - f_equal. rewrite map_map. apply map_ext. intros r. reflexivity.
  - rewrite map_map. apply map_ext. intros r. reflexivity.
Qed.

(** Sums that are not negative and fit as a whole fit month by month. *)
Lemma total_filter_le (col : Daily.row -> Z) (p : Daily.row -> bool) df :
  (forall r, In r df -> 0 <= col r) ->
  0 <= total (map col (filter p df)) <= total (map col df).
Proof.
  induction df as [| r df IH]; intros H; [cbn; lia |].
  assert (Hr : 0 <= col r) by (apply H; left; reflexivity).
  assert (Hdf : forall x, In x df -> 0 <= col x)
    by (intros x Hx; apply H; right; exact Hx).
  specialize (IH Hdf). cbn [filter map].
  destruct (p r); cbn [map]; rewrite ?total_cons; lia.
Qed.

Lemma month_rows_within df :
  forallb (fun r => (0 <=? Daily.post_day r) && (0 <=? Daily.num_comments r))
          df = true ->
  total (map Daily.post_day df) < 2 ^ 31 ->
  total (map Daily.num_comments df) < 2 ^ 63 ->
  forall w,
    within 32 (total (map Daily.post_day (month_rows w df))) /\
    within 64 (total (map Daily.num_comments (month_rows w df))).
Proof.
  intros Hall Hp Hc w. rewrite forallb_forall in Hall.
  assert (H1 : forall r, In r df -> 0 <= Daily.post_day r).
  { intros r Hr. specialize (Hall r Hr). apply andb_true_iff in Hall.
    rewrite !Z.leb_le in Hall. tauto. }
  assert (H2 : forall r, In r df -> 0 <= Daily.num_comments r).
  { intros r Hr. specialize (Hall r Hr). apply andb_true_iff in Hall.
    rewrite !Z.leb_le in Hall. tauto. }
  pose proof (total_filter_le Daily.post_day
                (fun r => truncate_1mo (Daily.date r) =? w) df H1) as B1.
  pose proof (total_filter_le Daily.num_comments
                (fun r => truncate_1mo (Daily.date r) =? w) df H2) as B2.
  unfold month_rows, within.
  change (2 ^ (32 - 1)) with (2 ^ 31). change (2 ^ (64 - 1)) with (2 ^ 63).
  lia.
Qed.

(** C5, amended: on a daily frame in date order in which, month by
    month, the [post_day] sum to an [Int32] and the [num_comments] to an
    [Int64], [calculate_monthly_aggregates] returns a monthly frame whose
    [num_posts] sum to the [post_day] of the daily frame and whose
    [num_comments] sum to its [num_comments]. *)
Theorem monthly_sums_conserved self :
  is_sorted (map Daily.date (daily_data_df self)) = true ->
  (forall w,
      within 32 (total (map Daily.post_day
                            (month_rows w (daily_data_df self)))) /\
      within 64 (total (map Daily.num_comments
                            (month_rows w (daily_data_df self))))) ->
  exists monthly self',
    calculate_monthly_aggregates self = Ok (monthly, self') /\
    total (map Monthly.num_posts monthly) =
      total (map Daily.post_day (daily_data_df self)) /\
    total (map Monthly.num_comments monthly) =
      total (map Daily.num_comments (daily_data_df self)).
Proof.
  intros Hs Hfit. rewrite (calculate_monthly_aggregates_sorted self Hs).
  eexists. eexists. split; [reflexivity |].
  set (df := daily_data_df self) in *.
  split.
  - rewrite <- (aggregate_months df Daily.post_day Hs). f_equal.
    apply map_ext_in. intros m Hm.
    destruct (aggregate_rows df m Hs Hm) as [-> _].
    apply Int32_within, Hfit.
  - rewrite <- (aggregate_months df Daily.num_comments Hs). f_equal.
    apply map_ext_in. intros m Hm.
    destruct (aggregate_rows df m Hs Hm) as [_ ->].
    apply Int64_within, Hfit.
Qed.

(** C6: on a daily frame in date order the monthly frame has its rows in
    strictly ascending order of [month_date]; each [month_date] is the first
    day of a calendar month that holds a daily row; and the month of every
    daily row has its row. *)
Theorem monthly_rows_per_month self :
  is_sorted (map Daily.date (daily_data_df self)) = true ->
  exists monthly self',
    calculate_monthly_aggregates self = Ok (monthly, self') /\
    Sorted Z.lt (map Monthly.month_date monthly) /\
    (forall m, In m monthly ->
       dt_day (Monthly.month_date m) = 1 /\
       exists r, In r (daily_data_df self) /\
                 dt_year (Daily.date r) = dt_year (Monthly.month_date m) /\
                 dt_month (Daily.date r) = dt_month (Monthly.month_date m)) /\
    (forall r, In r (daily_data_df self) ->
       exists m, In m monthly /\
                 civil_from_days (Monthly.month_date m) =
                 mkdatetime (dt_year (Daily.date r)) (dt_month (Daily.date r)) 1).
Proof.
  intros Hs. rewrite (calculate_monthly_aggregates_sorted self Hs).
  eexists. eexists. split; [reflexivity |].
  set (df := daily_data_df self) in *. unfold aggregate.
  split; [| split].
  - rewrite map_map. cbn [Monthly.month_date].
    apply (windows_ascending truncate_1mo Daily.date truncate_1mo_mono df Hs).
  - intros m Hm. apply in_map_iff in Hm. destruct Hm as [[w members] [<- Hg]].
    cbn [fst snd Monthly.month_date].
    destruct (windows_members truncate_1mo Daily.date df w members Hg)
      as [Hne Hall].
    destruct members as [| r members]; [congruence |].
    specialize (Hall r (or_introl eq_refl)).
    pose proof (civil_truncate_1mo (Daily.date r)) as Hc. rewrite Hall in Hc.
    assert (Hd : dt_day w = 1) by (unfold dt_day; now rewrite Hc).
    assert (Hy : dt_year w = dt_year (Daily.date r))
      by (unfold dt_year at 1; now rewrite Hc).
    assert (Hm : dt_month w = dt_month (Daily.date r))
      by (unfold dt_month at 1; now rewrite Hc).
    split; [exact Hd |].
    exists r. split; [| split; congruence].
    rewrite <- (windows_concat truncate_1mo Daily.date df).
    apply in_concat. exists (r :: members). split; [| left; reflexivity].
    apply in_map_iff. exists (w, r :: members). split; [reflexivity | exact Hg].
  - intros r Hr.
    destruct (windows_covers truncate_1mo Daily.date df r Hr)
      as [members [Hg _]].
    eexists. split.
    + apply in_map_iff. eexists. split; [reflexivity | exact Hg].
    + cbn [fst Monthly.month_date]. apply civil_truncate_1mo.
Qed.

(** C7: [calculate_monthly_aggregates] returns the same frame after
    [calculate_daily_sums] as before it; and on two aggregators whose daily
    frames agree on [date], [post_day] and [num_comments] it returns the
    same frame, whatever their [total_activities]. *)
Theorem monthly_independent_of_daily_sums self :
  monthly_frame (calculate_monthly_aggregates (calculate_daily_sums self)) =
    monthly_frame (calculate_monthly_aggregates self) /\
  (forall other,
      map source_columns (daily_data_df other) =
        map source_columns (daily_data_df self) ->
      monthly_frame (calculate_monthly_aggregates other) =
        monthly_frame (calculate_monthly_aggregates self)).
Proof.
  assert (H : forall other,
      map source_columns (daily_data_df other) =
        map source_columns (daily_data_df self) ->
      monthly_frame (calculate_monthly_aggregates other) =
        monthly_frame (calculate_monthly_aggregates self)).
  { intros other E. rewrite !monthly_frame_eq.
    assert (Ed : map Daily.date (daily_data_df other) =
                 map Daily.date (daily_data_df self)).
    { pose proof (f_equal (map (fun t => fst (fst t))) E) as E'.
      rewrite !map_map in E'. exact E'. }
    rewrite Ed, (aggregate_source_columns _ _ E). reflexivity. }
  split; [| exact H].
  apply H. unfold calculate_daily_sums. cbn [daily_data_df].
  rewrite map_map. apply map_ext. intros r. reflexivity.
Qed.

(** C10: a daily row in a month shorter than [monthlyPostingDay] has
    [post_day = 0]. *)
Theorem no_post_day_in_short_month ig r :
  In r (initialise_daily_data ig) ->
  days_in_month (dt_year (Daily.date r)) (dt_month (Daily.date r))
    < InstagramData.monthlyPostingDay ig ->
  Daily.post_day r = 0.
Proof.
  intros Hr Hlt.
  destruct (proj1 (initialise_daily_data_In ig r) Hr) as [d [_ Hr']].
  clear Hr. rename Hr' into Hr. apply day_rows_In in Hr.
  destruct Hr as [Hd [Hp _]]. rewrite Hp. subst d.
  pose proof (dt_day_le_days_in_month (Daily.date r)).
  destruct (Z.eqb_spec (dt_day (Daily.date r))
                       (InstagramData.monthlyPostingDay ig)); [lia | reflexivity].
Qed.

End AggregatorClaims.

(* ================================================================= *)
(** ** The aggregator on the records of the module and of its tests *)

Module AggregatorInstances.
Import Calendar CalendarFacts Python Polars PolarsFacts Exercise Spec Samples.
Import ActivityAggregator DailyFacts MonthlyFacts AggregatorClaims.

(** The [__main__] record validates to [ig_main], whatever the decimal
    digits beyond ASCII are and whatever else the integer coercion
    converts. *)
Lemma model_validate_raw_main :
  forall (U : Strptime.UnicodeData) (C : Pydantic.IntCoercion),
    @InstagramData.model_validate U C raw_main = Ok ig_main.
Proof.
  intros U C. unfold InstagramData.model_validate, raw_main.
  unfold Pydantic.required.
  change (dict_get "periodStart" _) with (Some (VStr "15/02/11")).
  change (dict_get "periodEnd" _) with (Some (VStr "30/08/21")).
  change (dict_get "monthlyPostingDay" _) with (Some (VInt 11)).
  match goal with
  | |- context [match dict_get "comments" ?f with _ => _ end] =>
      let v := eval vm_compute in (dict_get "comments" f) in
      change (dict_get "comments" f) with v
  end.
  unfold InstagramData.validate_monthlyPostingDay, Pydantic.validate_int.
  rewrite Pydantic.lax_int_VInt.
  unfold InstagramData.validate_comments, Pydantic.run_validator.
  cbn [InstagramData.convert_comments forallb InstagramData.is_list andb
       InstagramData.convert_items InstagramData.triple_to_dict list_get
       nth_error].
  cbn [Pydantic.validate_list Pydantic.validate_items].
  unfold Comment.validate, Pydantic.required.
  repeat match goal with
  | |- context [dict_get ?k ?f] =>
      let v := eval vm_compute in (dict_get k f) in
      change (dict_get k f) with v
  end.
  unfold Pydantic.validate_int. rewrite !Pydantic.lax_int_VInt.
  reflexivity.
Qed.

(** C1 on the record of the [__main__] block: the period has 3850 days, the
    daily frame has 3851 rows, two of them dated 5 April 2021. *)
Theorem daily_rows_of_main_record :
  valid_period ig_main /\
  days_between (InstagramData.periodStart ig_main)
               (InstagramData.periodEnd ig_main) + 1 = 3850 /\
  List.length (initialise_daily_data ig_main) = 3851%nat /\
  List.length (rows_on (cast_date (mkdatetime 2021 4 5))
                       (initialise_daily_data ig_main)) = 2%nat.
Proof.
  split; [unfold valid_period; vm_compute; discriminate |].
  split; [now vm_compute |]. split; now vm_compute.
Qed.

(** C2 on the record of the [__main__] block: the comments dated 5 April
    2021 have the counts 6 and 2, 8 in all; the daily frame has two rows for
    that day, with 6 and with 2 comments. *)
Theorem daily_comments_of_main_record :
  total_count (filter (dated (cast_date (mkdatetime 2021 4 5)))
                      (InstagramData.comments ig_main)) = 8 /\
  map Daily.num_comments
      (rows_on (cast_date (mkdatetime 2021 4 5))
               (initialise_daily_data ig_main)) = [6; 2].
Proof. split; now vm_compute. Qed.


Lemma calculate_daily_sums_total_witness :
  Daily.total_activities
    (Daily.mk (cast_date (mkdatetime 2021 1 11)) 1 5 (Some 6)) = Some (1 + 5).
Proof.
  refine (proj2 (proj1 (calculate_daily_sums_total (init ig_quarter)) _ _) _).
  - vm_compute. do 10 right. left. reflexivity.
  - vm_compute. split; [discriminate | reflexivity].
Defined.

(** C4 as stated fails: on a posting day with a comment of 2^63-1, the
    largest count of the column, [total_activities] is -2^63 and not
    [post_day + num_comments], which is 2^63. *)
Lemma calculate_daily_sums_wraps :
  daily_data_df (calculate_daily_sums (init ig_largest_count)) =
    [Daily.mk (cast_date (mkdatetime 2021 2 11)) 1 9223372036854775807
              (Some (-9223372036854775808))] /\
  ~ Forall (fun r => Daily.total_activities r =
                     Some (Daily.post_day r + Daily.num_comments r))
           (daily_data_df (calculate_daily_sums (init ig_largest_count))).
Proof.
  assert (E : daily_data_df (calculate_daily_sums (init ig_largest_count)) =
    [Daily.mk (cast_date (mkdatetime 2021 2 11)) 1 9223372036854775807
              (Some (-9223372036854775808))]) by (vm_compute; reflexivity).
  split; [exact E |].
  rewrite E. intros H. apply Forall_inv in H. vm_compute in H. discriminate.
Qed.

Lemma monthly_sums_conserved_witness :
  exists monthly self',
    calculate_monthly_aggregates (init ig_quarter) = Ok (monthly, self') /\
    total (map Monthly.num_posts monthly) =
      total (map Daily.post_day (daily_data_df (init ig_quarter))) /\
    total (map Monthly.num_comments monthly) =
      total (map Daily.num_comments (daily_data_df (init ig_quarter))).
Proof.
  apply monthly_sums_conserved.
  - vm_compute. reflexivity.
  - apply month_rows_within; vm_compute; reflexivity.
Defined.

(** C5 as stated fails: with two comments of 2^62 in January 2021 the
    [num_comments] of the month is -2^63, and the [num_comments] of the
    daily rows sum to 2^63. *)
Lemma monthly_sums_wrap :
  monthly_frame (calculate_monthly_aggregates (init ig_large_counts)) =
    Ok [Monthly.mk (cast_date (mkdatetime 2021 1 1)) 1
                   (-9223372036854775808)] /\
  total (map Daily.num_comments (daily_data_df (init ig_large_counts))) =
    9223372036854775808 /\
  ~ (exists monthly self',
       calculate_monthly_aggregates (init ig_large_counts) =
         Ok (monthly, self') /\
       total (map Monthly.num_comments monthly) =
         total (map Daily.num_comments (daily_data_df (init ig_large_counts)))).
Proof.
  split; [vm_compute; reflexivity |]. split; [vm_compute; reflexivity |].
  intros [monthly [self' [E H]]].
  vm_compute in E. injection E as <- _. vm_compute in H. discriminate.
Qed.

Lemma monthly_rows_per_month_witness :
  exists monthly self',
    calculate_monthly_aggregates (init ig_quarter) = Ok (monthly, self') /\
    Sorted Z.lt (map Monthly.month_date monthly).
Proof.
  destruct (monthly_rows_per_month (init ig_quarter)) as [m [s' [E [Hs _]]]].
  - now vm_compute.
  - exists m, s'. split; assumption.
Defined.

Lemma monthly_independent_of_daily_sums_witness :
  monthly_frame (calculate_monthly_aggregates
                   (calculate_daily_sums (init ig_quarter))) =
  monthly_frame (calculate_monthly_aggregates (init ig_quarter)).
Proof.
  apply (proj2 (monthly_independent_of_daily_sums (init ig_quarter))).
  now vm_compute.
Defined.

Lemma no_post_day_in_short_month_witness :
  Daily.post_day (Daily.mk (cast_date (mkdatetime 2021 2 28)) 0 0 None) = 0.
Proof.
  apply (no_post_day_in_short_month ig_february).
  - vm_compute. do 27 right. left. reflexivity.
  - now vm_compute.
Defined.

(** The tests of the repository. *)
Example test_store_posts_and_comments_daily :
  let ig := InstagramData.mk (mkdatetime 2021 3 1) (mkdatetime 2021 3 31) 11
              [Comment.mk (mkdatetime 2021 3 2) "Justin Bieber" 5;
               Comment.mk (mkdatetime 2021 3 11) "Lady Gaga" 6] in
  let daily_data := initialise_daily_data ig in
  List.length daily_data = 31%nat /\
  sum Int64 (map Daily.num_comments daily_data) = 11 /\
  List.length (filter (fun r => Daily.post_day r =? 1) daily_data) = 1%nat /\
  sum Int64 (map (fun r => match Daily.total_activities r with
                     | Some t => t
                     | None => 0
                     end)
           (daily_data_df (calculate_daily_sums (init ig)))) = 12.
Proof. now vm_compute. Qed.

Example test_calculate_monthly_aggregates :
  let monthly_data :=
    [Monthly.mk (cast_date (mkdatetime 2021 1 1)) 1 5;
     Monthly.mk (cast_date (mkdatetime 2021 2 1)) 1 6;
     Monthly.mk (cast_date (mkdatetime 2021 3 1)) 1 7] in
  monthly_frame (calculate_monthly_aggregates (init ig_quarter)) =
    Ok monthly_data /\
  sum Int32 (map Monthly.num_posts monthly_data) = 3 /\
  sum Int64 (map Monthly.num_comments monthly_data) = 18.
Proof. now vm_compute. Qed.

End AggregatorInstances.

(* ================================================================= *)
(** ** The date format *)

Module DateFormat.
Import Calendar Python Strptime Pydantic Exercise DateText Samples.
Local Open Scope str_scope.

(** A property of every number of a range, number by number. *)
Lemma forall_numbers (P : Z -> Prop) (lo : Z) (n : nat) :
  Forall P (numbers lo n) ->
  forall v, (lo <= v < lo + Z.of_nat n)%Z -> P v.
Proof.
  intros H v Hv. rewrite Forall_forall in H. apply H.
  unfold numbers. apply in_map_iff. exists (Z.to_nat (v - lo)).
  split; [lia | apply in_seq; lia].
Qed.

(** Case analysis on a number between literal bounds. *)
Ltac by_cases v lo n :=
  pattern v; apply (forall_numbers _ lo n); [| lia];
  let l := fresh "l" in
  set (l := numbers lo n); vm_compute in l; subst l;
  repeat (apply Forall_cons; [| try apply Forall_nil]).

(** *** Texts *)

Lemma append_assoc (a b c : str) : (a ++ b) ++ c = a ++ (b ++ c).
Proof. induction a as [| x a IH]; cbn [append]; [| rewrite IH]; reflexivity. Qed.

Lemma append_empty_r (a : str) : a ++ "" = a.
Proof. induction a as [| x a IH]; cbn [append]; [| rewrite IH]; reflexivity. Qed.

Lemma len_append (a b : str) : len (a ++ b) = (len a + len b)%nat.
Proof. induction a as [| x a IH]; cbn [append len]; [| rewrite IH]; reflexivity. Qed.

(** *** Decimal digits *)

Section Format.
Context {U : UnicodeData}.

Lemma decimal_value c v : decimal c = Some v -> 0 <= v <= 9.
Proof.
  unfold decimal. destruct (N.ltb_spec c 128).
  - destruct (N.leb_spec 48 c); destruct (N.leb_spec c 57); cbn [andb];
      try discriminate.
    intros E. injection E as <-. lia.
  - apply decimal_beyond_ascii_value.
Qed.

(** In ASCII the decimal digits are ["0"] to ["9"]. *)
Lemma decimal_ascii c v :
  (c < 128)%N -> decimal c = Some v -> c = Z.to_N (48 + v).
Proof.
  unfold decimal. intros Hc. destruct (N.ltb_spec c 128); [| lia].
  destruct (N.leb_spec 48 c); destruct (N.leb_spec c 57); cbn [andb];
    try discriminate.
  intros E. injection E as <-. lia.
Qed.

Lemma decimal_digit v : 0 <= v <= 9 -> decimal (Z.to_N (48 + v)) = Some v.
Proof.
  intros Hv. unfold decimal.
  destruct (N.ltb_spec (Z.to_N (48 + v)) 128); [| lia].
  destruct (N.leb_spec 48 (Z.to_N (48 + v)));
    destruct (N.leb_spec (Z.to_N (48 + v)) 57); cbn [andb]; try lia.
  f_equal. lia.
Qed.

Lemma is_digit_decimal c : is_digit c = true -> exists v, decimal c = Some v.
Proof. unfold is_digit. destruct (decimal c) as [v |]; [eauto | discriminate]. Qed.

Lemma decimal_is_digit c v : decimal c = Some v -> is_digit c = true.
Proof. unfold is_digit. intros ->. reflexivity. Qed.

(** A decimal digit is neither a slash nor a blank. *)
Lemma decimal_not_lit a c v :
  decimal c = Some v ->
  (N_of_ascii a < 48)%N -> lit a c = false.
Proof.
  intros Hc Ha. unfold lit. apply N.eqb_neq. intros <-.
  assert (Hlt : (N_of_ascii a < 128)%N) by lia.
  pose proof (decimal_value _ _ Hc). apply (decimal_ascii _ _ Hlt) in Hc. lia.
Qed.

End Format.

(** *** The matcher, alternative by alternative *)

Lemma re_match_group alt g re s :
  re_match (Group (alt :: g) :: re) s =
  try_alt alt re s (re_match (Group g :: re) s).
Proof. reflexivity. Qed.

Lemma re_match_no_group re s : re_match (Group [] :: re) s = None.
Proof. reflexivity. Qed.

Lemma re_match_slash re s :
  re_match (Lit "/" :: re) ("/" ++ s) = re_match re s.
Proof. reflexivity. Qed.

Lemma try_alt_no_match alt re s o :
  match_seq alt s = None -> try_alt alt re s o = o.
Proof. unfold try_alt. intros ->. reflexivity. Qed.

Lemma try_alt_no_rest alt re s o t r :
  match_seq alt s = Some (t, r) -> re_match re r = None ->
  try_alt alt re s o = o.
Proof. unfold try_alt. intros -> ->. reflexivity. Qed.

Lemma try_alt_match alt re s o t r :
  match_seq alt s = Some (t, r) ->
  try_alt alt re s o =
  match re_match re r with
  | Some (caps, rest) => Some (t :: caps, rest)
  | None => o
  end.
Proof. unfold try_alt. intros ->. reflexivity. Qed.

Lemma re_match_not_slash re c s :
  lit "/" c = false -> re_match (Lit "/" :: re) (Str c s) = None.
Proof. cbn [re_match]. intros ->. reflexivity. Qed.

Section Finds.
Context {U : UnicodeData}.

(** *** The groups find the texts of the pattern *)

(** A day below 10, and the days 30 and 31. *)
Lemma re_d_finds_ascii d ds rest re :
  (1 <= d <= 9 \/ 30 <= d <= 31)%Z -> day_text ds d ->
  re_match (Group re_d :: Lit "/" :: re) (ds ++ "/" ++ rest) =
    capture ds (re_match re rest) /\
  int ds = Some d.
Proof.
  intros [Hd | Hd]; revert ds.
  - by_cases d 1%Z 9%nat;
      intros ds Hds; cbv in Hds; intuition (subst ds; reflexivity).
  - by_cases d 30%Z 2%nat;
      intros ds Hds; cbv in Hds; subst ds; split; reflexivity.
Qed.

(** A day from 10 to 29: [1] or [2] and a decimal digit. *)
Lemma re_d_finds_tens t c v rest re :
  (1 <= t <= 2)%Z -> decimal c = Some v ->
  re_match (Group re_d :: Lit "/" :: re)
           ((digit t ++ Str c "") ++ "/" ++ rest) =
    capture (digit t ++ Str c "") (re_match re rest) /\
  int (digit t ++ Str c "") = Some (10 * t + v).
Proof.
  intros Ht Hc.
  pose proof (decimal_is_digit c v Hc) as Hdig.
  assert (Hslash : lit "/" c = false)
    by (apply (decimal_not_lit "/" c v Hc); vm_compute; reflexivity).
  assert (Hint : forall a w, decimal a = Some w ->
            int (Str a (Str c "")) = Some (10 * w + v)).
  { intros a w Ha. unfold int. cbn [lstrip].
    rewrite (decimal_not_lit " " a w Ha) by (vm_compute; reflexivity).
    cbn [int_digits]. rewrite Ha, Hc. f_equal; lia. }
  by_cases t 1%Z 2%nat.
  all: change (digit 1) with "1"; change (digit 2) with "2"; cbn [append].
  all: split; [| apply Hint; reflexivity].
  all: unfold re_d; rewrite !re_match_group, re_match_no_group.
  all: rewrite (try_alt_no_match [lit "3"; in_range "0" "1"]) by reflexivity.
  all: rewrite (try_alt_match [in_range "1" "2"; is_digit] _ _ _
                  (Str _ (Str c "")) ("/" ++ rest))
         by (cbn [match_seq]; rewrite Hdig; reflexivity).
  all: rewrite re_match_slash.
  all: destruct (re_match re rest) as [[caps r] |]; [reflexivity |].
  all: rewrite (try_alt_no_match [lit "0"; in_range "1" "9"]) by reflexivity.
  all: rewrite (try_alt_no_rest [in_range "1" "9"] _ _ _
                  (Str _ "") (Str c ("/" ++ rest)))
         by (reflexivity || (apply re_match_not_slash; exact Hslash)).
  all: rewrite (try_alt_no_match [lit " "; in_range "1" "9"]) by reflexivity.
  all: reflexivity.
Qed.

(** A month. *)
Lemma re_m_finds m ms rest re :
  (1 <= m <= 12)%Z -> In ms (month_texts m) ->
  re_match (Group re_m :: Lit "/" :: re) (ms ++ "/" ++ rest) =
    capture ms (re_match re rest) /\
  int ms = Some m.
Proof.
  intros Hm. revert ms. by_cases m 1%Z 12%nat;
    intros ms Hms; cbv in Hms; intuition (subst ms; reflexivity).
Qed.

(** A year: any two decimal digits. *)
Lemma re_y_finds c1 v1 c2 v2 :
  decimal c1 = Some v1 -> decimal c2 = Some v2 ->
  re_match [Group re_y] (Str c1 (Str c2 "")) =
    Some ([Str c1 (Str c2 "")], "") /\
  int (Str c1 (Str c2 "")) = Some (10 * v1 + v2).
Proof.
  intros H1 H2. split.
  - unfold re_y. rewrite re_match_group.
    rewrite (try_alt_match [is_digit; is_digit] _ _ _
               (Str c1 (Str c2 "")) "").
    + reflexivity.
    + cbn [match_seq].
      rewrite (decimal_is_digit _ _ H1), (decimal_is_digit _ _ H2).
      reflexivity.
  - unfold int. cbn [lstrip].
    rewrite (decimal_not_lit " " c1 v1 H1) by (vm_compute; reflexivity).
    cbn [int_digits]. rewrite H1, H2. f_equal; lia.
Qed.

(** The century rule of [%y] is the one of the pattern. *)
Lemma expand_year_century y : expand_year y = century y.
Proof. unfold expand_year, century. destruct (y <=? 68)%Z; lia. Qed.

Lemma re_d_finds d ds rest re :
  (1 <= d <= 31)%Z -> day_text ds d ->
  re_match (Group re_d :: Lit "/" :: re) (ds ++ "/" ++ rest) =
    capture ds (re_match re rest) /\
  int ds = Some d.
Proof.
  intros Hd Hds.
  destruct (Z.ltb_spec d 10) as [H10 | H10];
    [apply re_d_finds_ascii; [lia | exact Hds] |].
  destruct (Z.ltb_spec d 30) as [H30 | H30];
    [| apply re_d_finds_ascii; [lia | exact Hds]].
  unfold day_text in Hds.
  destruct (Z.ltb_spec d 10); [lia |]. destruct (Z.ltb_spec d 30); [| lia].
  destruct Hds as [c [Hc ->]].
  replace (Some d) with (Some (10 * (d / 10) + d mod 10))
    by (f_equal; symmetry; apply Z.div_mod; lia).
  apply re_d_finds_tens; [| exact Hc].
  pose proof (Z.div_mod d 10). pose proof (Z.mod_pos_bound d 10). lia.
Qed.

(** A text of the pattern that names a date is parsed to that date. *)
Lemma strptime_complete s dt :
  names_date s dt -> strptime s = Ok dt.
Proof.
  intros [d [m [y [[Hd [Hm [Hy [ds [ms [ys [Hds [Hms [Hys ->]]]]]]]]]
                     [-> V]]]]].
  destruct Hys as [c1 [c2 [H1 [H2 ->]]]].
  unfold strptime, format_regex.
  destruct (re_d_finds d ds (ms ++ "/" ++ Str c1 (Str c2 ""))
                       [Group re_m; Lit "/"; Group re_y] Hd Hds) as [E1 I1].
  destruct (re_m_finds m ms (Str c1 (Str c2 "")) [Group re_y] Hm Hms)
    as [E2 I2].
  destruct (re_y_finds c1 (y / 10) c2 (y mod 10) H1 H2) as [E3 I3].
  rewrite E1, E2, E3. cbn [capture]. rewrite I1, I2, I3.
  replace (10 * (y / 10) + y mod 10) with y
    by (apply Z.div_mod; lia).
  rewrite expand_year_century, V. reflexivity.
Qed.


End Finds.

(** *** What a match says of the text *)

Lemma group_inv g re s caps rest :
  re_match (Group g :: re) s = Some (caps, rest) ->
  exists alt t r caps',
    In alt g /\ match_seq alt s = Some (t, r) /\
    re_match re r = Some (caps', rest) /\ caps = t :: caps'.
Proof.
  induction g as [| alt g IH].
  - discriminate.
  - rewrite re_match_group. unfold try_alt. intros H.
    destruct (match_seq alt s) as [[t r] |] eqn:E.
    + destruct (re_match re r) as [[caps' rest'] |] eqn:E'.
      * inversion H; subst. exists alt, t, r, caps'.
        repeat split; auto. left; reflexivity.
      * destruct (IH H) as [a [t' [r' [c' [Ha Hr]]]]].
        exists a, t', r', c'. split; [right; exact Ha | exact Hr].
    + destruct (IH H) as [a [t' [r' [c' [Ha Hr]]]]].
      exists a, t', r', c'. split; [right; exact Ha | exact Hr].
Qed.

Lemma lit_eq a c : lit a c = true -> c = N_of_ascii a.
Proof. unfold lit. intros H. apply N.eqb_eq in H. now subst. Qed.

Lemma lit_inv a re s caps rest :
  re_match (Lit a :: re) s = Some (caps, rest) ->
  exists s', s = Str (N_of_ascii a) s' /\ re_match re s' = Some (caps, rest).
Proof.
  cbn [re_match]. destruct s as [| b s']; [discriminate |].
  destruct (lit a b) eqn:E; [| discriminate].
  apply lit_eq in E. subst b. intros H. now exists s'.
Qed.

Lemma match_seq_1 p s t r :
  match_seq [p] s = Some (t, r) ->
  exists c, p c = true /\ t = Str c "" /\ s = t ++ r.
Proof.
  cbn [match_seq]. destruct s as [| c s']; [discriminate |].
  destruct (p c) eqn:E; [| discriminate].
  intros H. inversion H; subst. now exists c.
Qed.

Lemma match_seq_2 p q s t r :
  match_seq [p; q] s = Some (t, r) ->
  exists c1 c2,
    p c1 = true /\ q c2 = true /\ t = Str c1 (Str c2 "") /\
    s = t ++ r.
Proof.
  cbn [match_seq]. destruct s as [| c1 [| c2 s']]; try discriminate.
  - destruct (p c1); discriminate.
  - destruct (p c1) eqn:E1; [| discriminate].
    destruct (q c2) eqn:E2; [| discriminate].
    intros H. inversion H; subst. now exists c1, c2.
Qed.

(** A character between two ASCII digits is an ASCII digit, between
    their values. *)
Lemma in_range_digit lo hi c :
  (48 <= N_of_ascii lo)%N ->
  in_range lo hi c = true ->
  exists v, (Z.of_N (N_of_ascii lo) - 48 <= v <= Z.of_N (N_of_ascii hi) - 48)%Z
            /\ c = Z.to_N (48 + v).
Proof.
  intros Hlo H. unfold in_range in H. apply andb_true_iff in H.
  rewrite !N.leb_le in H.
  exists (Z.of_N c - 48)%Z. split; lia.
Qed.

Ltac digit_of H v :=
  let Hv := fresh "Hv" in
  let E := fresh "E" in
  apply in_range_digit in H; [| now vm_compute];
  destruct H as [v [Hv E]];
  match type of Hv with
  | (?a <= _ <= ?b)%Z =>
      let a' := eval vm_compute in a in
      let b' := eval vm_compute in b in
      change (a' <= v <= b')%Z in Hv
  end.

Ltac found_text :=
  eexists; split; [| split]; [| | vm_compute; reflexivity];
  [lia | vm_compute; first [reflexivity | tauto]].

Section Texts.
Context {U : UnicodeData}.

Lemma int_two_digits a w c v :
  decimal a = Some w -> decimal c = Some v ->
  int (Str a (Str c "")) = Some (10 * w + v).
Proof.
  intros Ha Hc. unfold int. cbn [lstrip].
  rewrite (decimal_not_lit " " a w Ha) by (vm_compute; reflexivity).
  cbn [int_digits]. rewrite Ha, Hc. f_equal; lia.
Qed.

Lemma re_d_text alt s t r :
  In alt re_d -> match_seq alt s = Some (t, r) ->
  s = t ++ r /\
  exists d, (1 <= d <= 31)%Z /\ day_text t d /\ int t = Some d.
Proof.
  unfold re_d. intros [<- | [<- | [<- | [<- | [<- | []]]]]] H.
  - apply match_seq_2 in H. destruct H as [c1 [c2 [H1 [H2 [-> ->]]]]].
    split; [reflexivity |]. apply lit_eq in H1. subst c1.
    digit_of H2 v. subst c2.
    by_cases v 0%Z 2%nat; found_text.
  - apply match_seq_2 in H. destruct H as [c1 [c2 [H1 [H2 [-> ->]]]]].
    split; [reflexivity |].
    digit_of H1 v1. subst c1.
    apply is_digit_decimal in H2. destruct H2 as [v2 H2].
    pose proof (decimal_value _ _ H2) as Hv2.
    exists (10 * v1 + v2). split; [lia |]. split.
    + unfold day_text.
      destruct (Z.ltb_spec (10 * v1 + v2) 10); [lia |].
      destruct (Z.ltb_spec (10 * v1 + v2) 30); [| lia].
      exists c2.
      replace ((10 * v1 + v2) mod 10) with v2
        by (apply (Z.mod_unique_pos _ 10 v1); lia).
      replace ((10 * v1 + v2) / 10) with v1
        by (apply (Z.div_unique_pos _ 10 v1 v2); lia).
      split; [exact H2 | reflexivity].
    + apply int_two_digits; [apply decimal_digit; lia | exact H2].
  - apply match_seq_2 in H. destruct H as [c1 [c2 [H1 [H2 [-> ->]]]]].
    split; [reflexivity |]. apply lit_eq in H1. subst c1.
    digit_of H2 v. subst c2.
    by_cases v 1%Z 9%nat; found_text.
  - apply match_seq_1 in H. destruct H as [c [H1 [-> ->]]].
    split; [reflexivity |].
    digit_of H1 v. subst c.
    by_cases v 1%Z 9%nat; found_text.
  - apply match_seq_2 in H. destruct H as [c1 [c2 [H1 [H2 [-> ->]]]]].
    split; [reflexivity |]. apply lit_eq in H1. subst c1.
    digit_of H2 v. subst c2.
    by_cases v 1%Z 9%nat; found_text.
Qed.

Lemma re_m_text alt s t r :
  In alt re_m -> match_seq alt s = Some (t, r) ->
  s = t ++ r /\
  exists m, (1 <= m <= 12)%Z /\ In t (month_texts m) /\ int t = Some m.
Proof.
  unfold re_m. intros [<- | [<- | [<- | []]]] H.
  - apply match_seq_2 in H. destruct H as [c1 [c2 [H1 [H2 [-> ->]]]]].
    split; [reflexivity |]. apply lit_eq in H1. subst c1.
    digit_of H2 v. subst c2.
    by_cases v 0%Z 3%nat; found_text.
  - apply match_seq_2 in H. destruct H as [c1 [c2 [H1 [H2 [-> ->]]]]].
    split; [reflexivity |]. apply lit_eq in H1. subst c1.
    digit_of H2 v. subst c2.
    by_cases v 1%Z 9%nat; found_text.
  - apply match_seq_1 in H. destruct H as [c [H1 [-> ->]]].
    split; [reflexivity |].
    digit_of H1 v. subst c.
    by_cases v 1%Z 9%nat; found_text.
Qed.

Lemma re_y_text alt s t r :
  In alt re_y -> match_seq alt s = Some (t, r) ->
  s = t ++ r /\
  exists y, (0 <= y <= 99)%Z /\ year_text t y /\ int t = Some y.
Proof.
  unfold re_y. intros [<- | []] H.
  apply match_seq_2 in H. destruct H as [c1 [c2 [H1 [H2 [-> ->]]]]].
  split; [reflexivity |].
  apply is_digit_decimal in H1, H2.
  destruct H1 as [v1 H1]. destruct H2 as [v2 H2].
  pose proof (decimal_value _ _ H1). pose proof (decimal_value _ _ H2).
  exists (10 * v1 + v2). split; [lia |]. split.
  - exists c1, c2.
    replace ((10 * v1 + v2) mod 10) with v2
      by (apply (Z.mod_unique_pos _ 10 v1); lia).
    replace ((10 * v1 + v2) / 10) with v1
      by (apply (Z.div_unique_pos _ 10 v1 v2); lia).
    repeat split; assumption.
  - now apply int_two_digits.
Qed.

(** A text that is parsed writes the date it is parsed to. *)
Lemma strptime_sound s dt :
  strptime s = Ok dt -> names_date s dt.
Proof.
  unfold strptime.
  destruct (re_match format_regex s) as [[caps rest] |] eqn:E;
    [| discriminate].
  destruct rest; [| discriminate].
  destruct caps as [| td [| tm [| ty [| ? ?]]]]; try discriminate.
  destruct (int td) as [d |] eqn:Id; [| discriminate].
  destruct (int tm) as [m |] eqn:Im; [| discriminate].
  destruct (int ty) as [y |] eqn:Iy; [| discriminate].
  destruct (valid_date _) eqn:V; [| discriminate].
  intros H. inversion H; subst dt. clear H.
  unfold format_regex in E.
  apply group_inv in E. destruct E as [a1 [t1 [r1 [c1 [A1 [M1 [E C1]]]]]]].
  apply lit_inv in E. destruct E as [r1' [-> E]].
  apply group_inv in E. destruct E as [a2 [t2 [r2 [c2 [A2 [M2 [E C2]]]]]]].
  apply lit_inv in E. destruct E as [r2' [-> E]].
  apply group_inv in E. destruct E as [a3 [t3 [r3 [c3 [A3 [M3 [E C3]]]]]]].
  cbn [re_match] in E. injection E as Ec3 Er3.
  subst c3 r3. subst c2. subst c1. injection C1 as Et1 Et2 Et3.
  subst t1 t2 t3.
  destruct (re_d_text _ _ _ _ A1 M1) as [-> [d' [Hd [Td Id']]]].
  destruct (re_m_text _ _ _ _ A2 M2) as [-> [m' [Hm [Tm Im']]]].
  destruct (re_y_text _ _ _ _ A3 M3) as [-> [y' [Hy [Ty Iy']]]].
  assert (d' = d) by congruence. assert (m' = m) by congruence.
  assert (y' = y) by congruence. subst d' m' y'.
  exists d, m, y. rewrite expand_year_century in V |- *.
  repeat split; try lia; auto.
  exists td, tm, ty. rewrite append_empty_r. repeat split; auto.
Qed.

(** [strptime] fails with a [ValueError] only. *)
Lemma strptime_raises s e :
  strptime s = Raise e -> exists msg, e = ValueError msg.
Proof.
  unfold strptime.
  destruct (re_match format_regex s) as [[caps rest] |];
    [| intros H; inversion H; eauto].
  destruct rest; [| intros H; inversion H; eauto].
  destruct caps as [| td [| tm [| ty [| ? ?]]]];
    try (intros H; inversion H; eauto; fail).
  destruct (int td); [| intros H; inversion H; eauto].
  destruct (int tm); [| intros H; inversion H; eauto].
  destruct (int ty); [| intros H; inversion H; eauto].
  destruct (valid_date _); intros H; inversion H; eauto.
Qed.

Lemma validate_dates_ok s dt :
  InstagramData.validate_dates (VStr s) = Ok dt <-> strptime s = Ok dt.
Proof.
  unfold InstagramData.validate_dates.
  destruct (strptime s) as [d | e] eqn:E.
  - tauto.
  - destruct (strptime_raises s e E) as [msg ->].
    split; discriminate.
Qed.

Lemma validate_dates_raise s :
  (forall dt, strptime s <> Ok dt) ->
  InstagramData.validate_dates (VStr s) =
  Raise (ValueError ("Invalid date format: " ++ s)).
Proof.
  intros H. unfold InstagramData.validate_dates.
  destruct (strptime s) as [d | e] eqn:E.
  - now destruct (H d).
  - destruct (strptime_raises s e E) as [msg ->]. reflexivity.
Qed.

End Texts.

(** C8, amended: a date field given a text validates exactly when the text
    writes, in the pattern day/month/two-digit-year, a date that exists, the
    year being 2000 to 2068 for 00 to 68 and 1969 to 1999 for 69 to 99; the
    two digits of the year and the second digit of a day from 10 to 29 are
    any decimal digits of Unicode, the other digits are ASCII. Any other
    text gives a line of the [ValidationError] with the location of the
    field, the text as input and the text in its message. The validator of
    the comment date is the one of the period bounds. *)
Theorem validate_dates_pattern (U : UnicodeData) s :
  (forall dt, InstagramData.validate_dates (VStr s) = Ok dt <->
              names_date s dt) /\
  ((forall dt, ~ names_date s dt) ->
   forall loc,
     run_validator InstagramData.validate_dates loc (VStr s) =
     Invalid [mkError "value_error" loc
                      ("Value error, Invalid date format: " ++ s) (VStr s)]) /\
  Comment.validate_dates = InstagramData.validate_dates.
Proof.
  split; [| split].
  - intros dt. rewrite validate_dates_ok. split.
    + apply strptime_sound.
    + apply strptime_complete.
  - intros H loc. unfold run_validator.
    rewrite validate_dates_raise; [reflexivity |].
    intros dt E. apply (H dt). now apply strptime_sound.
  - reflexivity.
Qed.

Lemma validate_dates_pattern_witness :
  run_validator InstagramData.validate_dates [LField "periodStart"]
                (VStr "2021-03-11") =
  Invalid [mkError "value_error" [LField "periodStart"]
                   "Value error, Invalid date format: 2021-03-11"
                   (VStr "2021-03-11")].
Proof.
  apply (proj1 (proj2 (validate_dates_pattern arabic_indic
                                              "2021-03-11"))).
  intros dt H.
  apply (proj2 (proj1 (validate_dates_pattern arabic_indic
                                              "2021-03-11") dt)) in H.
  vm_compute in H. discriminate.
Defined.

(** Whatever the decimal digits beyond ASCII are, ["15/02/99"] is in the
    pattern and validates to 1999, and ["31/02/21"] is in the pattern and
    does not validate. *)
Lemma validate_dates_century (U : UnicodeData) :
  (date_text "15/02/99" 15 2 99 /\
   InstagramData.validate_dates (VStr "15/02/99") =
     Ok (mkdatetime 1999 2 15) /\
   InstagramData.validate_dates (VStr "15/02/99") <>
     Ok (mkdatetime 2099 2 15)) /\
  (date_text "31/02/21" 31 2 21 /\
   InstagramData.validate_dates (VStr "31/02/21") =
     Raise (ValueError "Invalid date format: 31/02/21")).
Proof.
  split; split.
  - repeat split; try lia. exists "15", "02", "99".
    split; [exists 53%N; split; reflexivity |].
    split; [vm_compute; tauto |].
    split; [exists 57%N, 57%N; repeat split; reflexivity | reflexivity].
  - split; [reflexivity |].
    change (InstagramData.validate_dates (VStr "15/02/99"))
      with (Ok (mkdatetime 1999 2 15)).
    discriminate.
  - repeat split; try lia. exists "31", "02", "21".
    split; [reflexivity |].
    split; [vm_compute; tauto |].
    split; [exists 50%N, 49%N; repeat split; reflexivity | reflexivity].
  - reflexivity.
Qed.

(** C8 as stated fails: ["15/02/99"] is in the pattern and validates to
    1999, not to 2099; ["31/02/21"] is in the pattern and does not
    validate. *)
Lemma validate_dates_not_20xx :
  (date_text "15/02/99" 15 2 99 /\
   InstagramData.validate_dates (VStr "15/02/99") =
     Ok (mkdatetime 1999 2 15) /\
   InstagramData.validate_dates (VStr "15/02/99") <>
     Ok (mkdatetime 2099 2 15)) /\
  (date_text "31/02/21" 31 2 21 /\
   InstagramData.validate_dates (VStr "31/02/21") =
     Raise (ValueError "Invalid date format: 31/02/21")).
Proof. apply validate_dates_century. Qed.

(** With the Arabic-Indic digits in the table: the year written with two
    of them validates; a day that begins with one does not. *)
Example validate_dates_arabic_indic :
  InstagramData.validate_dates (VStr ("15/02/" ++ Str 1633 (Str 1633 ""))) =
    Ok (mkdatetime 2011 2 15) /\
  InstagramData.validate_dates (VStr ("1" ++ Str 1637 "/02/11")) =
    Ok (mkdatetime 2011 2 15) /\
  InstagramData.validate_dates (VStr (Str 1633 (Str 1637 "/02/11"))) =
    Raise (ValueError ("Invalid date format: " ++
                       Str 1633 (Str 1637 "/02/11"))) /\
  InstagramData.validate_dates (VStr ("3" ++ Str 1632 "/01/11")) =
    Raise (ValueError ("Invalid date format: " ++
                       ("3" ++ Str 1632 "/01/11"))).
Proof. repeat split; vm_compute; reflexivity. Qed.

End DateFormat.

(* ================================================================= *)
(** ** The comments array *)

Module CommentsArray.
Import Calendar Python Strptime Pydantic Exercise DateText CommentForms.
Import DateFormat Samples.
Import InstagramData.
Local Open Scope str_scope.

Lemma convert_items_triples es :
  convert_items (map triple es) = Ok (map object es).
Proof.
  induction es as [| e es IH]; [reflexivity |].
  cbn [map convert_items]. rewrite IH. reflexivity.
Qed.

Lemma forallb_is_list_triples es : forallb is_list (map triple es) = true.
Proof. induction es as [| e es IH]; [reflexivity | exact IH]. Qed.

(** An array of triples is converted to the array of objects. *)
Lemma convert_comments_triples es :
  convert_comments (VList (map triple es)) = Ok (VList (map object es)).
Proof.
  unfold convert_comments.
  now rewrite forallb_is_list_triples, convert_items_triples.
Qed.

(** An array of objects is left as it is. *)
Lemma convert_comments_objects items :
  forallb is_dict items = true ->
  convert_comments (VList items) = Ok (VList items).
Proof.
  intros H. unfold convert_comments.
  destruct items as [| v items]; [reflexivity |].
  cbn [forallb] in *. apply andb_true_iff in H. destruct H as [Hv _].
  destruct v; try discriminate. reflexivity.
Qed.

Lemma forallb_is_dict_objects es : forallb is_dict (map object es) = true.
Proof. induction es as [| e es IH]; [reflexivity | exact IH]. Qed.

Section Validation.
Context {U : UnicodeData} {C : IntCoercion}.

(** Both forms are validated as the array of objects is. *)
Lemma validate_comments_forms loc es :
  validate_comments loc (VList (map triple es)) =
    validate_list Comment.validate loc (VList (map object es)) /\
  validate_comments loc (VList (map object es)) =
    validate_list Comment.validate loc (VList (map object es)).
Proof.
  unfold validate_comments, run_validator.
  rewrite convert_comments_triples.
  rewrite (convert_comments_objects _ (forallb_is_dict_objects es)).
  split; reflexivity.
Qed.

(** An object with well-formed fields validates to the comment event it
    stands for. *)
Lemma validate_object loc e c :
  stands_for e c ->
  Comment.validate loc (object (well_formed e)) = Valid c.
Proof.
  intros [Hd [Hu Hc]]. destruct e as [[s u] z]. destruct c as [dt u' z'].
  cbn [fst snd Comment.date Comment.user Comment.count] in *. subst u' z'.
  apply strptime_complete in Hd.
  unfold Comment.validate, object, well_formed, required. cbn [fst snd].
  change (dict_get "date" _) with (Some (VStr s)).
  change (dict_get "user" _) with (Some (VStr u)).
  change (dict_get "count" _) with (Some (VInt z)).
  unfold run_validator, Comment.validate_dates. rewrite Hd.
  unfold validate_str, validate_int. rewrite lax_int_VInt.
  reflexivity.
Qed.

Lemma validate_items_objects loc es cs :
  Forall2 stands_for es cs ->
  forall i,
    validate_items Comment.validate loc i
                   (map object (map well_formed es)) = Valid cs.
Proof.
  induction 1 as [| e c es cs Hec Hrest IH]; intros i; [reflexivity |].
  cbn [map validate_items].
  rewrite (validate_object _ e c Hec), IH. reflexivity.
Qed.

(** An array that holds an element that is not an object, once it has not
    been converted, does not validate. *)
Lemma validate_items_not_dict loc items :
  (exists v, In v items /\ is_dict v = false) ->
  forall i cs, validate_items Comment.validate loc i items <> Valid cs.
Proof.
  induction items as [| v items IH]; intros [x [Hx Hd]] i cs.
  - destruct Hx.
  - cbn [validate_items].
    destruct Hx as [-> | Hx].
    + destruct x; try discriminate; cbn [Comment.validate both];
        destruct (validate_items Comment.validate loc (S i) items);
        discriminate.
    + assert (Hrest : forall cs', validate_items Comment.validate loc (S i) items
                                  <> Valid cs').
      { apply IH. now exists x. }
      destruct (validate_items Comment.validate loc (S i) items) as [cs' | |].
      * now destruct (Hrest cs').
      * destruct (Comment.validate (loc ++ [LIndex i]) v); discriminate.
      * destruct (Comment.validate (loc ++ [LIndex i]) v); discriminate.
Qed.

(** C9, amended: an array of triples is converted, before the fields are
    validated, to the array of the objects with the same fields, and
    validates as that array does; an array of objects is validated as it
    is; with well-formed fields both validate, to the same comment events.
    An array that holds an element that is not a list and an element that
    is not an object (a mixed array, or an element of neither form) does
    not validate. *)
Theorem comments_forms loc :
  (forall es,
      convert_comments (VList (map triple es)) = Ok (VList (map object es)) /\
      validate_comments loc (VList (map triple es)) =
        validate_comments loc (VList (map object es))) /\
  (forall items,
      forallb is_dict items = true ->
      convert_comments (VList items) = Ok (VList items)) /\
  (forall es cs,
      Forall2 stands_for es cs ->
      validate_comments loc (VList (map triple (map well_formed es))) =
        Valid cs /\
      validate_comments loc (VList (map object (map well_formed es))) =
        Valid cs) /\
  (forall items,
      (exists v, In v items /\ is_list v = false) ->
      (exists v, In v items /\ is_dict v = false) ->
      forall cs, validate_comments loc (VList items) <> Valid cs).
Proof.
  split; [| split; [| split]].
  - intros es. split; [apply convert_comments_triples |].
    destruct (validate_comments_forms loc es) as [-> ->]. reflexivity.
  - apply convert_comments_objects.
  - intros es cs Hes.
    destruct (validate_comments_forms loc (map well_formed es)) as [-> ->].
    cbn [validate_list]. rewrite (validate_items_objects loc es cs Hes).
    split; reflexivity.
  - intros items [v [Hv Hl]] Hd cs.
    unfold validate_comments, run_validator, convert_comments.
    assert (E : forallb is_list items = false).
    { apply not_true_is_false. intros E. rewrite forallb_forall in E.
      rewrite (E v Hv) in Hl. discriminate. }
    rewrite E. cbn [validate_list]. now apply validate_items_not_dict.
Qed.

End Validation.

Lemma comments_forms_witness :
  validate_comments [LField "comments"] triples =
    Valid [Comment.mk (mkdatetime 2021 3 2) "Justin Bieber" 5;
           Comment.mk (mkdatetime 2021 4 5) "Lady Gaga" 6] /\
  validate_comments [LField "comments"] objects =
    Valid [Comment.mk (mkdatetime 2021 3 2) "Justin Bieber" 5;
           Comment.mk (mkdatetime 2021 4 5) "Lady Gaga" 6] /\
  forall cs, validate_comments [LField "comments"] (VList [VInt 7]) <> Valid cs.
Proof.
  destruct (@comments_forms arabic_indic int_only [LField "comments"])
    as [_ [_ [Hwf Hbad]]].
  split; [| split].
  - apply (Hwf [("2/3/21", "Justin Bieber", 5%Z); ("5/4/21", "Lady Gaga", 6%Z)]).
    repeat constructor; apply strptime_sound; reflexivity.
  - apply (Hwf [("2/3/21", "Justin Bieber", 5%Z); ("5/4/21", "Lady Gaga", 6%Z)]).
    repeat constructor; apply strptime_sound; reflexivity.
  - apply Hbad; exists (VInt 7); split; [now left | reflexivity | now left | reflexivity].
Defined.

(** A list that is too short for a triple leaves the validation with an
    [IndexError]. *)
Example short_triple_raises :
  forall (U : UnicodeData) (C : IntCoercion),
    @validate_comments U C [LField "comments"]
                       (VList [VList [VStr "2/3/21"; VStr "Justin Bieber"]]) =
    Raised IndexError.
Proof. reflexivity. Qed.

(** An array that mixes a well-formed triple and a well-formed object does
    not validate, whatever else the integer coercion converts: the triple
    is refused as not being an object. *)
Lemma mixed_comments_model_type :
  forall (U : UnicodeData) (C : IntCoercion),
    @validate_comments U C [LField "comments"] mixed =
    Invalid [mkError "model_type" [LField "comments"; LIndex 0]
               "Input should be a valid dictionary or instance of Comment"
               (VList [VStr "2/3/21"; VStr "Justin Bieber"; VInt 5])].
Proof.
  intros U C. unfold validate_comments, run_validator, mixed.
  cbn [convert_comments forallb is_list andb validate_list validate_items].
  replace (@Comment.validate U C ([LField "comments"] ++ [LIndex 1])
             (VDict [("date", VStr "5/4/21"); ("user", VStr "Lady Gaga");
                     ("count", VInt 6)]))
    with (Valid (Comment.mk (mkdatetime 2021 4 5) "Lady Gaga" 6)).
  - reflexivity.
  - symmetry.
    apply (@validate_object U C _ ("5/4/21", "Lady Gaga", 6%Z)).
    repeat split. apply strptime_sound. reflexivity.
Qed.

(** C9 as stated fails: each element of [Samples.mixed] is a well-formed
    triple or a well-formed object, as those of [Samples.triples] and
    [Samples.objects] are, and the array does not validate. *)
Lemma mixed_comments_refused :
  mixed = VList [triple (well_formed ("2/3/21", "Justin Bieber", 5%Z));
                 object (well_formed ("5/4/21", "Lady Gaga", 6%Z))] /\
  validate_comments [LField "comments"] mixed =
    Invalid [mkError "model_type" [LField "comments"; LIndex 0]
               "Input should be a valid dictionary or instance of Comment"
               (VList [VStr "2/3/21"; VStr "Justin Bieber"; VInt 5])].
Proof. split; [reflexivity | apply mixed_comments_model_type]. Qed.

End CommentsArray.

(* ================================================================= *)
(** ** More on the validation of the input *)

Module MoreValidation.
Import Calendar CalendarFacts Python Strptime Pydantic Exercise DateText.
Import CommentForms More DateFormat CommentsArray Samples.
Import InstagramData.
Local Open Scope str_scope.

(** *** The posting day *)

Lemma validate_monthlyPostingDay_cases (C : IntCoercion) loc z :
  validate_monthlyPostingDay loc (VInt z) =
  if (1 <=? z)%Z && (z <=? 31)%Z then Valid z
  else Invalid [mkError "value_error" loc
                  "Value error, Monthly posting day must be between 1 and 31"
                  (VInt z)].
Proof.
  unfold validate_monthlyPostingDay, validate_int. rewrite lax_int_VInt.
  unfold run_after_validator, validate_day.
  now destruct ((1 <=? z)%Z && (z <=? 31)%Z).
Qed.

(** X1: an integer posting day validates exactly when it is between 1 and
    31; any other integer gives a line of the [ValidationError] with the
    message of [validate_day]. *)
Theorem monthlyPostingDay_range (C : IntCoercion) loc z :
  ((1 <= z <= 31)%Z -> validate_monthlyPostingDay loc (VInt z) = Valid z) /\
  (~ (1 <= z <= 31)%Z ->
   validate_monthlyPostingDay loc (VInt z) =
   Invalid [mkError "value_error" loc
              "Value error, Monthly posting day must be between 1 and 31"
              (VInt z)]).
Proof.
  rewrite validate_monthlyPostingDay_cases.
  destruct (Z.leb_spec 1 z); destruct (Z.leb_spec z 31); cbn [andb];
    split; intros Hz; try reflexivity; lia.
Qed.

Lemma monthlyPostingDay_range_witness :
  validate_monthlyPostingDay [LField "monthlyPostingDay"] (VInt 11) = Valid 11%Z /\
  validate_monthlyPostingDay [LField "monthlyPostingDay"] (VInt 32) =
  Invalid [mkError "value_error" [LField "monthlyPostingDay"]
             "Value error, Monthly posting day must be between 1 and 31"
             (VInt 32)].
Proof.
  split.
  - apply (proj1 (monthlyPostingDay_range int_only _ 11%Z)). lia.
  - apply (proj2 (monthlyPostingDay_range int_only _ 32%Z)). lia.
Defined.

(** *** The conversion of the comments *)

Lemma forallb_is_list_long es : forallb is_list (map long_triple es) = true.
Proof. induction es as [| e es IH]; [reflexivity | exact IH]. Qed.

Lemma convert_items_long es :
  convert_items (map long_triple es) = Ok (map object (map fst es)).
Proof.
  induction es as [| [[[d u] c] more] es IH]; [reflexivity |].
  cbn [map convert_items]. rewrite IH. reflexivity.
Qed.

(** A list of lists with a short one among them is not converted. *)
Lemma convert_items_short items :
  forallb is_list items = true ->
  (exists v, In v items /\ short_list v = true) ->
  convert_items items = Raise IndexError.
Proof.
  induction items as [| item items IH]; intros Hl [v [Hv Hs]].
  - destruct Hv.
  - cbn [forallb] in Hl. apply andb_true_iff in Hl. destruct Hl as [Hi Hl].
    destruct item as [| | | | xs |]; try discriminate.
    cbn [convert_items].
    destruct xs as [| x0 [| x1 [| x2 more]]]; try reflexivity.
    destruct Hv as [<- | Hv]; [discriminate |].
    cbn [triple_to_dict list_get nth_error].
    rewrite IH; [reflexivity | exact Hl | now exists v].
Qed.

(** X2: [convert_comments] leaves alone whatever is not a list of lists: a
    value that is not a list, and a list that holds an element that is not
    a list. *)
Theorem convert_comments_passes v :
  (is_list v = false -> convert_comments v = Ok v) /\
  (forall items,
      v = VList items -> forallb is_list items = false ->
      convert_comments v = Ok v).
Proof.
  split.
  - destruct v; try reflexivity. discriminate.
  - intros items -> H. unfold convert_comments. now rewrite H.
Qed.

Lemma convert_comments_passes_witness :
  convert_comments (VStr "2/3/21") = Ok (VStr "2/3/21") /\
  convert_comments mixed = Ok mixed.
Proof.
  split.
  - apply (proj1 (convert_comments_passes (VStr "2/3/21"))). reflexivity.
  - apply (proj2 (convert_comments_passes mixed) _ eq_refl). reflexivity.
Defined.

(** X3: of a list of lists, [convert_comments] reads the first three items
    of each list: lists of three items or more are converted to the objects
    of their first three items, what follows being dropped; if one of the
    lists has fewer than three items the conversion raises [IndexError]. *)
Theorem convert_comments_first_three :
  (forall es,
      convert_comments (VList (map long_triple es)) =
      Ok (VList (map object (map fst es)))) /\
  (forall items,
      forallb is_list items = true ->
      (exists v, In v items /\ short_list v = true) ->
      convert_comments (VList items) = Raise IndexError).
Proof.
  split.
  - intros es. unfold convert_comments.
    now rewrite forallb_is_list_long, convert_items_long.
  - intros items Hl Hs. unfold convert_comments.
    now rewrite Hl, (convert_items_short items Hl Hs).
Qed.

Lemma convert_comments_first_three_witness :
  convert_comments
    (VList [VList [VStr "2/3/21"; VStr "Justin Bieber"]; VList []]) =
  Raise IndexError.
Proof.
  apply (proj2 convert_comments_first_three).
  - reflexivity.
  - exists (VList []). split; [right; left; reflexivity | reflexivity].
Defined.

(** X4: converting twice is converting once. *)
Theorem convert_comments_idempotent v v' :
  convert_comments v = Ok v' -> convert_comments v' = Ok v'.
Proof.
  unfold convert_comments at 1. destruct v as [| | | | items |];
    try (intros H; injection H as <-; reflexivity).
  destruct (forallb is_list items) eqn:E.
  - destruct (convert_items items) as [ds |] eqn:Ec; [| discriminate].
    intros H. injection H as <-.
    assert (Hd : forallb is_dict ds = true).
    { clear E. revert ds Ec. induction items as [| item items IH];
        intros ds Ec.
      - injection Ec as <-. reflexivity.
      - cbn [convert_items] in Ec.
        destruct (triple_to_dict item) as [d |] eqn:Et; [| discriminate].
        destruct (convert_items items) as [ds' |]; [| discriminate].
        injection Ec as <-. cbn [forallb]. rewrite (IH ds' eq_refl).
        destruct item as [| | | | xs |]; try discriminate.
        unfold triple_to_dict in Et.
        destruct (list_get xs 0); [| discriminate].
        destruct (list_get xs 1); [| discriminate].
        destruct (list_get xs 2); [| discriminate].
        injection Et as <-. reflexivity. }
    now apply convert_comments_objects.
  - intros H. injection H as <-. unfold convert_comments. now rewrite E.
Qed.

Lemma convert_comments_idempotent_witness :
  convert_comments objects = Ok objects.
Proof. apply (convert_comments_idempotent triples). reflexivity. Defined.

(** *** The dates that validate *)

Lemma two_digits_day (U : UnicodeData) d :
  (1 <= d <= 31)%Z -> day_text (two_digits d) d.
Proof.
  intros H. unfold day_text.
  destruct (Z.ltb_spec d 10) as [H10 | H10].
  - by_cases d 1%Z 9%nat; vm_compute; tauto.
  - destruct (Z.ltb_spec d 30) as [H30 | H30]; [| reflexivity].
    exists (Z.to_N (48 + d mod 10)). split; [| reflexivity].
    apply decimal_digit. pose proof (Z.mod_pos_bound d 10). lia.
Qed.

Lemma two_digits_month m :
  (1 <= m <= 12)%Z -> In (two_digits m) (month_texts m).
Proof. intros H. by_cases m 1%Z 12%nat; vm_compute; tauto. Qed.

Lemma two_digits_year (U : UnicodeData) y :
  (0 <= y <= 99)%Z -> year_text (two_digits y) y.
Proof.
  intros H. exists (Z.to_N (48 + y / 10)), (Z.to_N (48 + y mod 10)).
  pose proof (Z.mod_pos_bound y 10).
  split; [apply decimal_digit; Z.to_euclidean_division_equations; lia |].
  split; [apply decimal_digit; lia | reflexivity].
Qed.

Lemma century_mod_100 y :
  (1969 <= y <= 2068)%Z -> century (y mod 100) = y.
Proof.
  intros H. unfold century.
  destruct (Z.leb_spec (y mod 100) 68);
    Z.to_euclidean_division_equations; lia.
Qed.

Lemma century_range y :
  (0 <= y <= 99)%Z -> (1969 <= century y <= 2068)%Z.
Proof. intros H. unfold century. destruct (Z.leb_spec y 68); lia. Qed.

(** X5: a date field validates to dates that exist, from 1 January 1969 to
    31 December 2068, and to each of them: such a date written as
    [strftime("%d/%m/%y")] writes it validates to itself. *)
Theorem validate_dates_range (U : UnicodeData) :
  (forall s dt,
      validate_dates (VStr s) = Ok dt ->
      valid_date dt = true /\ (1969 <= year dt <= 2068)%Z) /\
  (forall dt,
      valid_date dt = true -> (1969 <= year dt <= 2068)%Z ->
      validate_dates (VStr (ddmmyy dt)) = Ok dt).
Proof.
  split.
  - intros s dt H.
    apply validate_dates_ok, strptime_sound in H.
    destruct H as [d [m [y [[_ [_ [Hy _]]] [-> V]]]]].
    split; [exact V |]. cbn [year]. now apply century_range.
  - intros dt V Hy.
    apply validate_dates_ok, strptime_complete.
    pose proof V as V'. apply valid_date_spec in V'. destruct V' as [Hm Hd].
    pose proof (days_in_month_pos (year dt) (month dt) Hm) as Hdim.
    exists (day dt), (month dt), (year dt mod 100)%Z.
    split; [| split].
    + split; [lia |]. split; [lia |].
      split; [Z.to_euclidean_division_equations; lia |].
      exists (two_digits (day dt)), (two_digits (month dt)),
             (two_digits (year dt mod 100)).
      split; [apply two_digits_day; lia |].
      split; [apply two_digits_month; lia |].
      split; [apply two_digits_year; Z.to_euclidean_division_equations; lia |].
      reflexivity.
    + rewrite century_mod_100 by exact Hy. now destruct dt.
    + exact V.
Qed.

Lemma validate_dates_range_witness :
  validate_dates (VStr "29/02/20") = Ok (mkdatetime 2020 2 29).
Proof.
  apply (proj2 (validate_dates_range arabic_indic) (mkdatetime 2020 2 29)).
  - reflexivity.
  - cbn [year]. lia.
Defined.

Lemma day_text_length (U : UnicodeData) d ds :
  (1 <= d <= 31)%Z -> day_text ds d -> (1 <= len ds <= 2)%nat.
Proof.
  intros H. unfold day_text.
  destruct (Z.ltb_spec d 10) as [H10 | H10].
  - revert ds. by_cases d 1%Z 9%nat; intros ds Hds;
      vm_compute in Hds; intuition (subst ds; cbn; lia).
  - destruct (Z.ltb_spec d 30) as [H30 | H30].
    + intros [c [_ ->]]. cbn. lia.
    + intros ->. cbn. lia.
Qed.

Lemma month_text_length m ms :
  (1 <= m <= 12)%Z -> In ms (month_texts m) -> (1 <= len ms <= 2)%nat.
Proof.
  intros H. revert ms. by_cases m 1%Z 12%nat; intros ms Hms;
    vm_compute in Hms; intuition (subst ms; cbn; lia).
Qed.

(** X6: a text that validates as a date has six to eight characters. *)
Theorem validate_dates_length (U : UnicodeData) s dt :
  validate_dates (VStr s) = Ok dt -> (6 <= len s <= 8)%nat.
Proof.
  intros H. apply validate_dates_ok, strptime_sound in H.
  destruct H as [d [m [y [[Hd [Hm [Hy [ds [ms [ys [Hds [Hms [Hys ->]]]]]]]]]
                          _]]]].
  pose proof (day_text_length U d ds Hd Hds).
  pose proof (month_text_length m ms Hm Hms).
  destruct Hys as [c1 [c2 [_ [_ ->]]]].
  rewrite !len_append. cbn [len]. lia.
Qed.

Lemma validate_dates_length_witness :
  (6 <= len "15/02/11" <= 8)%nat.
Proof.
  apply (validate_dates_length arabic_indic "15/02/11"
                               (mkdatetime 2011 2 15)).
  reflexivity.
Defined.

(** *** The model *)

(** X7: a period bound that is there and is not a string makes
    [model_validate] raise [TypeError], which is no [ValidationError]. *)
Theorem model_validate_TypeError (U : UnicodeData) (C : IntCoercion)
        fields v :
  dict_get "periodStart" fields = Some v ->
  (forall s, v <> VStr s) ->
  model_validate (VDict fields) = Raise TypeError.
Proof.
  intros Hget Hv. unfold model_validate.
  unfold required at 1. rewrite Hget.
  unfold run_validator at 1.
  replace (validate_dates v) with (@Raise datetime TypeError).
  - reflexivity.
  - destruct v; try reflexivity. now destruct (Hv s).
Qed.

Lemma model_validate_TypeError_witness :
  model_validate
    (VDict [("periodStart", VInt 20110215); ("periodEnd", VStr "30/08/21");
            ("monthlyPostingDay", VInt 11); ("comments", VList [])]) =
  Raise TypeError.
Proof.
  apply (model_validate_TypeError arabic_indic int_only _ (VInt 20110215)).
  - reflexivity.
  - discriminate.
Defined.

(** X8: a record with two dates that validate, an integer posting day
    between 1 and 31 and an array of well-formed triples validates to the
    model of these values; the start of the period need not come before
    its end. *)
Theorem model_validate_well_formed (U : UnicodeData) (C : IntCoercion)
        s1 d1 s2 d2 z es cs :
  names_date s1 d1 -> names_date s2 d2 -> (1 <= z <= 31)%Z ->
  Forall2 stands_for es cs ->
  model_validate
    (VDict [("periodStart", VStr s1); ("periodEnd", VStr s2);
            ("monthlyPostingDay", VInt z);
            ("comments", VList (map triple (map well_formed es)))]) =
  Ok (InstagramData.mk d1 d2 z cs).
Proof.
  intros H1 H2 Hz Hes. unfold model_validate, required.
  change (dict_get "periodStart" _) with (Some (VStr s1)).
  change (dict_get "periodEnd" _) with (Some (VStr s2)).
  change (dict_get "monthlyPostingDay" _) with (Some (VInt z)).
  change (dict_get "comments" _)
    with (Some (VList (map triple (map well_formed es)))).
  unfold run_validator at 1 2.
  rewrite (proj2 (validate_dates_ok s1 d1) (strptime_complete s1 d1 H1)).
  rewrite (proj2 (validate_dates_ok s2 d2) (strptime_complete s2 d2 H2)).
  rewrite validate_monthlyPostingDay_cases.
  replace ((1 <=? z)%Z && (z <=? 31)%Z) with true
    by (symmetry; apply andb_true_iff; rewrite !Z.leb_le; lia).
  rewrite (proj1 (validate_comments_forms _ (map well_formed es))).
  cbn [validate_list]. rewrite (validate_items_objects _ es cs Hes).
  reflexivity.
Qed.

Lemma model_validate_well_formed_witness :
  model_validate
    (VDict [("periodStart", VStr "30/08/21"); ("periodEnd", VStr "15/02/11");
            ("monthlyPostingDay", VInt 11);
            ("comments",
             VList [VList [VStr "5/4/21"; VStr "Lady Gaga"; VInt 6]])]) =
  Ok (InstagramData.mk (mkdatetime 2021 8 30) (mkdatetime 2011 2 15) 11
                       [Comment.mk (mkdatetime 2021 4 5) "Lady Gaga" 6]).
Proof.
  apply (model_validate_well_formed arabic_indic int_only
           "30/08/21" _ "15/02/11" _ 11%Z
           [("5/4/21", "Lady Gaga", 6%Z)]).
  - apply strptime_sound. reflexivity.
  - apply strptime_sound. reflexivity.
  - lia.
  - repeat constructor. apply strptime_sound. reflexivity.
Defined.

End MoreValidation.

(* ================================================================= *)
(** ** More on the aggregator *)

Module MoreAggregator.
Import Calendar CalendarFacts Python Polars PolarsFacts Exercise Spec More.
Import ActivityAggregator DailyFacts MonthlyFacts AggregatorClaims Samples.

(** *** The rows of each day *)









(** X11: when [periodEnd] is before [periodStart] the daily frame is empty,
    and so is the monthly frame, which is computed without an error. *)
Theorem reversed_period_empty ig :
  days_between (InstagramData.periodStart ig) (InstagramData.periodEnd ig)
    < 0 ->
  initialise_daily_data ig = [] /\
  calculate_monthly_aggregates (calculate_daily_sums (init ig)) =
    Ok ([], mk ig [] (Some [])).
Proof.
  intros H.
  assert (E : initialise_daily_data ig = []).
  { rewrite initialise_daily_data_by_day, date_range_empty; [reflexivity |].
    unfold first_day, last_day, cast_date, days_between in *. lia. }
  split; [exact E |].
  unfold init, calculate_daily_sums. cbn [daily_data_df ig_data monthly_data_df].
  rewrite E. reflexivity.
Qed.

Lemma reversed_period_empty_witness :
  initialise_daily_data
    (InstagramData.mk (mkdatetime 2021 8 30) (mkdatetime 2011 2 15) 11 []) = [].
Proof.
  refine (proj1 (reversed_period_empty _ _)). now vm_compute.
Defined.

(** X12: the daily frame is in date order, every day of the period has
    a row, and every row is dated within the period, whatever the
    comments. *)
Theorem daily_frame_ordered_complete ig :
  is_sorted (map Daily.date (initialise_daily_data ig)) = true /\
  (forall d, first_day ig <= d <= last_day ig ->
             exists r, In r (initialise_daily_data ig) /\ Daily.date r = d) /\
  (forall r, In r (initialise_daily_data ig) ->
             first_day ig <= Daily.date r <= last_day ig).
Proof.
  split; [apply initialise_daily_data_sorted |].
  split; [apply initialise_daily_data_covers |].
  apply initialise_daily_data_dates.
Qed.

Lemma daily_frame_ordered_complete_witness :
  exists r, In r (initialise_daily_data ig_main) /\
            Daily.date r = cast_date (mkdatetime 2016 2 29).
Proof.
  apply (proj1 (proj2 (daily_frame_ordered_complete ig_main))).
  vm_compute. split; discriminate.
Defined.

(** *** The daily sums *)

Lemma total_or_zero_sum df :
  (forall r, In r df ->
             within 64 (Daily.post_day r + Daily.num_comments r)) ->
  total (map total_or_zero
             (map (fun r =>
                     Daily.mk (Daily.date r) (Daily.post_day r)
                              (Daily.num_comments r)
                              (Some (Int64 (Daily.post_day r +
                                            Daily.num_comments r))))
                  df)) =
  total (map Daily.post_day df) + total (map Daily.num_comments df).
Proof.
  induction df as [| r df IH]; intros H; [reflexivity |].
  cbn [map]. rewrite !total_cons, IH
    by (intros x Hx; apply H; right; exact Hx).
  cbn [total_or_zero Daily.total_activities].
  rewrite (Int64_within _ (H r (or_introl eq_refl))). lia.
Qed.

Lemma day_rows_counts ig d r :
  In r (day_rows ig d) ->
  Daily.num_comments r = 0 \/
  exists c, In c (InstagramData.comments ig) /\
            Daily.num_comments r = Comment.count c.
Proof.
  rewrite day_rows_eq.
  destruct (filter (dated d) (InstagramData.comments ig)) as [| c cs] eqn:E.
  - intros [<- | []]. left; reflexivity.
  - intros H. apply in_map_iff in H. destruct H as [c' [<- Hc]]. right.
    exists c'. split; [| reflexivity].
    rewrite <- E in Hc. now apply filter_In in Hc.
Qed.

Lemma initialise_daily_data_post_day ig r :
  In r (initialise_daily_data ig) ->
  Daily.post_day r = 0 \/ Daily.post_day r = 1.
Proof.
  intros Hr.
  destruct (proj1 (initialise_daily_data_In ig r) Hr) as [d [_ Hd]].
  destruct (day_rows_In ig d r Hd) as [_ [-> _]].
  destruct (dt_day d =? InstagramData.monthlyPostingDay ig);
    [right | left]; reflexivity.
Qed.

Lemma initialise_daily_data_counts ig r :
  In r (initialise_daily_data ig) ->
  Daily.num_comments r = 0 \/
  exists c, In c (InstagramData.comments ig) /\
            Daily.num_comments r = Comment.count c.
Proof.
  intros Hr.
  destruct (proj1 (initialise_daily_data_In ig r) Hr) as [d [_ Hd]].
  exact (day_rows_counts ig d r Hd).
Qed.

(** X13: after [calculate_daily_sums] on a frame whose rows have
    [post_day + num_comments] within 64 bits, the column
    [total_activities] sums to the sum of [post_day] plus the sum of
    [num_comments]; on a new aggregator whose comments have counts from
    -2^63 to 2^63-2 that is the sum of [post_day] plus the counts of the
    comments dated within the period. *)
Theorem total_activities_sum :
  (forall self,
      (forall r, In r (daily_data_df self) ->
                 within 64 (Daily.post_day r + Daily.num_comments r)) ->
      total (map total_or_zero (daily_data_df (calculate_daily_sums self))) =
      total (map Daily.post_day (daily_data_df self)) +
      total (map Daily.num_comments (daily_data_df self))) /\
  (forall ig,
      (forall c, In c (InstagramData.comments ig) ->
                 - 2 ^ 63 <= Comment.count c < 2 ^ 63 - 1) ->
      total (map total_or_zero
                 (daily_data_df (calculate_daily_sums (init ig)))) =
      total (map Daily.post_day (initialise_daily_data ig)) +
      total_count (filter (in_period ig) (InstagramData.comments ig))).
Proof.
  split.
  - intros self H. apply total_or_zero_sum. exact H.
  - intros ig Hc. unfold calculate_daily_sums, init. cbn [daily_data_df].
    rewrite total_or_zero_sum, initialise_daily_data_sum; [reflexivity |].
    intros r Hr. unfold within. change (2 ^ (64 - 1)) with (2 ^ 63).
    destruct (initialise_daily_data_post_day ig r Hr) as [-> | ->];
      destruct (initialise_daily_data_counts ig r Hr) as [-> | [c [Hin ->]]];
      try specialize (Hc c Hin); lia.
Qed.

Lemma total_activities_sum_witness :
  total (map total_or_zero
             (daily_data_df (calculate_daily_sums (init ig_quarter)))) =
  total (map Daily.post_day (initialise_daily_data ig_quarter)) + 18.
Proof.
  apply (proj2 total_activities_sum ig_quarter).
  intros c [<- | [<- | [<- | []]]]; cbn [Comment.count]; lia.
Defined.

(** *** The monthly frame of a new aggregator *)

Lemma monthly_frame_init ig :
  monthly_frame (calculate_monthly_aggregates (init ig)) =
  Ok (aggregate (initialise_daily_data ig)).
Proof.
  rewrite monthly_frame_eq. cbn [init daily_data_df].
  now rewrite initialise_daily_data_sorted.
Qed.







(** X15: [calculate_monthly_aggregates] keeps the frame it returns in
    [monthly_data_df] and leaves [ig_data] and [daily_data_df] as they
    were; called again, it returns the same frame and the same
    aggregator. *)
Theorem calculate_monthly_aggregates_again self monthly self' :
  calculate_monthly_aggregates self = Ok (monthly, self') ->
  monthly_data_df self' = Some monthly /\
  daily_data_df self' = daily_data_df self /\
  ig_data self' = ig_data self /\
  calculate_monthly_aggregates self' = Ok (monthly, self').
Proof.
  unfold calculate_monthly_aggregates.
  destruct (group_by_dynamic Daily.date truncate_1mo (daily_data_df self))
    as [groups |] eqn:E; [| discriminate].
  intros H. injection H as <- <-. cbn [monthly_data_df daily_data_df ig_data].
  repeat split. rewrite E. reflexivity.
Qed.

Lemma calculate_monthly_aggregates_again_witness :
  exists monthly self',
    calculate_monthly_aggregates (init ig_quarter) = Ok (monthly, self') /\
    calculate_monthly_aggregates self' = Ok (monthly, self').
Proof.
  destruct (calculate_monthly_aggregates (init ig_quarter))
    as [[monthly self'] |] eqn:E.
  - exists monthly, self'. split; [reflexivity |].
    apply (calculate_monthly_aggregates_again _ _ _ E).
  - vm_compute in E. discriminate.
Defined.

(** *** Counts that are not negative *)

Lemma aggregate_month_dates df :
  map Monthly.month_date (aggregate df) =
  map fst (windows truncate_1mo Daily.date df).
Proof. unfold aggregate. rewrite map_map. reflexivity. Qed.

Lemma total_le_length (col : Daily.row -> Z) df :
  (forall r, In r df -> col r <= 1) ->
  total (map col df) <= Z.of_nat (List.length df).
Proof.
  induction df as [| r df IH]; intros H; [cbn; lia |].
  cbn [map List.length]. rewrite total_cons.
  pose proof (H r (or_introl eq_refl)).
  assert (total (map col df) <= Z.of_nat (List.length df))
    by (apply IH; intros x Hx; apply H; right; exact Hx).
  lia.
Qed.

(** X18: when no comment has a negative count, every daily row has
    [post_day] 0 or 1 and [num_comments] at least 0; when moreover the
    counts of the comments dated within the period sum to less than 2^63
    and the daily frame has fewer than 2^31 rows, every monthly row of the
    new aggregator has [num_posts] and [num_comments] at least 0. *)
Theorem counts_not_negative ig :
  (forall c, In c (InstagramData.comments ig) -> 0 <= Comment.count c) ->
  (forall r, In r (initialise_daily_data ig) ->
             (Daily.post_day r = 0 \/ Daily.post_day r = 1) /\
             0 <= Daily.num_comments r) /\
  (total_count (filter (in_period ig) (InstagramData.comments ig)) < 2 ^ 63 ->
   Z.of_nat (List.length (initialise_daily_data ig)) < 2 ^ 31 ->
   exists monthly,
     monthly_frame (calculate_monthly_aggregates (init ig)) = Ok monthly /\
     forall m, In m monthly ->
               0 <= Monthly.num_posts m /\ 0 <= Monthly.num_comments m).
Proof.
  intros Hc.
  assert (Hrows : forall r, In r (initialise_daily_data ig) ->
             (Daily.post_day r = 0 \/ Daily.post_day r = 1) /\
             0 <= Daily.num_comments r).
  { intros r Hr. split; [exact (initialise_daily_data_post_day ig r Hr) |].
    destruct (initialise_daily_data_counts ig r Hr) as [-> | [c [Hin ->]]];
      [apply Z.le_refl | exact (Hc c Hin)]. }
  split; [exact Hrows |].
  intros Hsum Hlen.
  exists (aggregate (initialise_daily_data ig)).
  split; [apply monthly_frame_init |].
  intros m Hm.
  destruct (aggregate_rows _ m (initialise_daily_data_sorted ig) Hm)
    as [-> ->].
  set (w := Monthly.month_date m).
  pose proof (total_filter_le Daily.post_day
                (fun r => truncate_1mo (Daily.date r) =? w)
                (initialise_daily_data ig)
                (fun r Hr => ltac:(destruct (proj1 (Hrows r Hr)) as [-> | ->];
                                   lia))) as Hp.
  pose proof (total_filter_le Daily.num_comments
                (fun r => truncate_1mo (Daily.date r) =? w)
                (initialise_daily_data ig)
                (fun r Hr => proj2 (Hrows r Hr))) as Hn.
  pose proof (total_le_length Daily.post_day (initialise_daily_data ig)
                (fun r Hr => ltac:(destruct (proj1 (Hrows r Hr)) as [-> | ->];
                                   lia))) as Hl.
  rewrite initialise_daily_data_sum in Hn.
  fold (month_rows w (initialise_daily_data ig)) in Hp, Hn.
  rewrite Int32_within, Int64_within; unfold within;
    change (2 ^ (32 - 1)) with (2 ^ 31); change (2 ^ (64 - 1)) with (2 ^ 63);
    lia.
Qed.

Lemma counts_not_negative_witness :
  exists monthly,
    monthly_frame (calculate_monthly_aggregates (init ig_quarter)) =
      Ok monthly /\
    Forall (fun m => 0 <= Monthly.num_posts m /\ 0 <= Monthly.num_comments m)
           monthly.
Proof.
  destruct (proj2 (counts_not_negative ig_quarter
                     ltac:(intros c [<- | [<- | [<- | []]]]; cbn; lia)))
    as [monthly [E H]].
  - vm_compute. reflexivity.
  - vm_compute. reflexivity.
  - exists monthly. split; [exact E | apply Forall_forall; exact H].
Defined.

(** *** The posts of each month *)

Lemma same_month_same_day a b :
  truncate_1mo a = truncate_1mo b -> dt_day a = dt_day b -> a = b.
Proof. rewrite !truncate_1mo_eq. lia. Qed.

Lemma date_range_NoDup stop start : NoDup (date_range start stop).
Proof.
  pattern start, (date_range start stop). apply date_range_ind.
  - intros s _. constructor.
  - intros s Hs IH. constructor; [| exact IH].
    intros Hin. apply date_range_In in Hin. lia.
Qed.

Lemma posts_of_window mpd w l :
  NoDup (map Daily.date l) ->
  (forall r, In r l ->
             Daily.post_day r = if dt_day (Daily.date r) =? mpd then 1 else 0) ->
  total (map Daily.post_day
           (filter (fun r => truncate_1mo (Daily.date r) =? w) l)) =
  if existsb (fun r => (truncate_1mo (Daily.date r) =? w) &&
                       (dt_day (Daily.date r) =? mpd)) l
  then 1 else 0.
Proof.
  induction l as [| x l IH]; intros Hnd Hp; [reflexivity |].
  cbn [map] in Hnd. inversion Hnd as [| ? ? Hx Hnd']; subst.
  specialize (IH Hnd' (fun r Hr => Hp r (or_intror Hr))).
  pose proof (Hp x (or_introl eq_refl)) as Hpx.
  cbn [filter existsb].
  destruct (Z.eqb_spec (truncate_1mo (Daily.date x)) w) as [Hw | Hw];
    cbn [andb orb]; [| exact IH].
  cbn [map]. rewrite total_cons, IH, Hpx.
  destruct (Z.eqb_spec (dt_day (Daily.date x)) mpd) as [Hd | Hd];
    cbn [orb]; [| lia].
  assert (Hnone : existsb (fun r => (truncate_1mo (Daily.date r) =? w) &&
                                    (dt_day (Daily.date r) =? mpd)) l = false).
  { apply not_true_is_false. intros He. apply existsb_exists in He.
    destruct He as [r [Hr Hc]]. apply andb_true_iff in Hc.
    rewrite !Z.eqb_eq in Hc. destruct Hc as [Hc1 Hc2].
    apply Hx. rewrite (same_month_same_day (Daily.date x) (Daily.date r)) by lia.
    now apply in_map. }
  rewrite Hnone. reflexivity.
Qed.

(** X19: when no two comments share a date, the [num_posts] of a month of
    the new aggregator is 1 if a day of the period in that month has
    [monthlyPostingDay] as its day of month, and 0 otherwise. *)
Theorem monthly_posts_distinct_dates ig :
  NoDup (map (fun c => cast_date (Comment.date c)) (InstagramData.comments ig)) ->
  exists monthly,
    monthly_frame (calculate_monthly_aggregates (init ig)) = Ok monthly /\
    forall m, In m monthly ->
      (Monthly.num_posts m = 0 \/ Monthly.num_posts m = 1) /\
      (Monthly.num_posts m = 1 <->
       exists d, first_day ig <= d <= last_day ig /\
                 truncate_1mo d = Monthly.month_date m /\
                 dt_day d = InstagramData.monthlyPostingDay ig).
Proof.
  intros Hnd.
  exists (aggregate (initialise_daily_data ig)).
  split; [apply monthly_frame_init |].
  intros m Hm.
  destruct (aggregate_rows _ m (initialise_daily_data_sorted ig) Hm)
    as [-> _].
  set (w := Monthly.month_date m). unfold month_rows.
  destruct (initialise_daily_data_distinct_dates ig Hnd) as [Hdates _].
  rewrite (posts_of_window (InstagramData.monthlyPostingDay ig) w).
  - destruct (existsb _ (initialise_daily_data ig)) eqn:E;
      [change (Int32 1) with 1 | change (Int32 0) with 0].
    + split; [right; reflexivity |]. split; [intros _ | reflexivity].
      apply existsb_exists in E. destruct E as [r [Hr Hc]].
      apply andb_true_iff in Hc. rewrite !Z.eqb_eq in Hc.
      exists (Daily.date r). split; [| exact Hc].
      exact (initialise_daily_data_dates ig r Hr).
    + split; [left; reflexivity |]. split; [intros H01; discriminate H01 |].
      intros [d [Hd [Hw Hday]]]. exfalso.
      destruct (initialise_daily_data_covers ig d Hd) as [r [Hr Hdr]].
      assert (Ht : existsb (fun r => (truncate_1mo (Daily.date r) =? w) &&
                      (dt_day (Daily.date r) =?
                       InstagramData.monthlyPostingDay ig))
                     (initialise_daily_data ig) = true).
      { apply existsb_exists. exists r. split; [exact Hr |].
        rewrite Hdr. apply andb_true_iff. rewrite !Z.eqb_eq.
        split; [exact Hw | exact Hday]. }
      congruence.
  - rewrite Hdates. apply date_range_NoDup.
  - intros r Hr.
    destruct (proj1 (initialise_daily_data_In ig r) Hr) as [d [_ Hd]].
    destruct (day_rows_In ig d r Hd) as [-> [-> _]]. reflexivity.
Qed.

Lemma monthly_posts_distinct_dates_witness :
  exists monthly,
    monthly_frame (calculate_monthly_aggregates (init ig_quarter)) =
      Ok monthly /\
    forall m, In m monthly ->
              Monthly.num_posts m = 0 \/ Monthly.num_posts m = 1.
Proof.
  destruct (monthly_posts_distinct_dates ig_quarter) as [monthly [E H]].
  - vm_compute. repeat constructor; cbn; intuition discriminate.
  - exists monthly. split; [exact E |]. intros m Hm. apply (H m Hm).
Defined.

(** *** The months of the monthly frame *)

(** X16: the monthly frame of a new aggregator has a row for a month
    exactly when a day of the period falls in that month; when the period
    is valid its first row is the month of [periodStart], dated the first
    day of that month. *)
Theorem months_of_period ig :
  exists monthly,
    monthly_frame (calculate_monthly_aggregates (init ig)) = Ok monthly /\
    (forall w, In w (map Monthly.month_date monthly) <->
               exists d, first_day ig <= d <= last_day ig /\
                         w = truncate_1mo d) /\
    (first_day ig <= last_day ig ->
     exists m rest, monthly = m :: rest /\
                    Monthly.month_date m = truncate_1mo (first_day ig)).
Proof.
  exists (aggregate (initialise_daily_data ig)).
  split; [apply monthly_frame_init |]. split.
  - intros w. rewrite aggregate_month_dates. split.
    + intros Hw. apply in_map_iff in Hw. destruct Hw as [[w' ms] [<- Hin]].
      destruct (windows_members truncate_1mo Daily.date _ _ _ Hin)
        as [Hne Hall].
      destruct ms as [| r ms]; [congruence |].
      exists (Daily.date r). split.
      * apply initialise_daily_data_dates.
        apply (windows_member_In truncate_1mo Daily.date _ _ _ r Hin).
        left; reflexivity.
      * cbn [fst]. symmetry. apply Hall. left; reflexivity.
    + intros [d [Hd ->]].
      destruct (initialise_daily_data_covers ig d Hd) as [r [Hr <-]].
      destruct (windows_covers truncate_1mo Daily.date _ r Hr)
        as [ms [Hin _]].
      apply in_map_iff. exists (truncate_1mo (Daily.date r), ms).
      split; [reflexivity | exact Hin].
  - intros Hv.
    assert (Hhead : exists r rows, initialise_daily_data ig = r :: rows /\
                                   Daily.date r = first_day ig).
    { rewrite initialise_daily_data_by_day, date_range_cons by exact Hv.
      cbn [flat_map]. pose proof (day_rows_not_nil ig (first_day ig)) as Hn.
      destruct (day_rows ig (first_day ig)) as [| r rs] eqn:E; [congruence |].
      exists r. eexists. split; [reflexivity |].
      refine (proj1 (day_rows_In ig (first_day ig) r _)). rewrite E.
      left; reflexivity. }
    destruct Hhead as [r [rows [E Hd]]]. unfold aggregate. rewrite E.
    destruct (windows_head truncate_1mo Daily.date r rows) as [ms [ws Ew]].
    rewrite Ew. cbn [map]. eexists. eexists. split; [reflexivity |].
    cbn [Monthly.month_date fst]. rewrite Hd. reflexivity.
Qed.

Lemma months_of_period_witness :
  exists monthly m rest,
    monthly_frame (calculate_monthly_aggregates (init ig_main)) = Ok monthly /\
    monthly = m :: rest /\
    Monthly.month_date m = cast_date (mkdatetime 2011 2 1).
Proof.
  destruct (months_of_period ig_main) as [monthly [E [_ Hfirst]]].
  destruct Hfirst as [m [rest [Em Hm]]]; [vm_compute; discriminate |].
  exists monthly, m, rest. split; [exact E |]. split; [exact Em |].
  rewrite Hm. now vm_compute.
Defined.

(** *** The comments of each month *)


End MoreAggregator.
